(** * objectpack.tools: a shallow embedding and its verified properties

    The Python module [objectpack/tools.py] is a flat collection of helpers
    over Django: a paginating iterator ([QuerySplitter]), a memoizing lookup
    cache ([ModelCache]), a transaction context manager ([TransactionCM]),
    request-parameter coercions, glob matchers and a model serializer.

    Each helper is embedded as a Rocq function that follows the Python text
    statement by statement.  Mutable objects become records threaded through
    the calls, exceptions become the [Raise] branch of [result], and the
    parts owned by Django (ORM lookups, attribute reads on model instances,
    [strptime], [unicode]) are Section variables. *)

From Stdlib Require Import ZArith Lia Ascii String List Bool.
From stdpp Require Import base tactics option list gmap strings sorting.

Local Open Scope Z_scope.

(** ** Python prelude: exceptions, slices, strings, [int] *)
Module Py.

(** The exception classes the module raises, catches or lets through. *)
Inductive exn : Type :=
  | StopIteration
  | IndexError
  | TypeError
  | ValueError
  | AttributeError
  | AssertionError
  | DoesNotExist
  | MultipleObjectsReturned
  | OtherError (tag : string).

Inductive result (A : Type) : Type :=
  | Ok (a : A)
  | Raise (e : exn).
Global Arguments Ok {A} a.
Global Arguments Raise {A} e.

Definition bind {A B} (r : result A) (k : A -> result B) : result B :=
  match r with
  | Ok a => k a
  | Raise e => Raise e
  end.

Definition exn_eqb (e1 e2 : exn) : bool :=
  match e1, e2 with
  | StopIteration, StopIteration | IndexError, IndexError
  | TypeError, TypeError | ValueError, ValueError
  | AttributeError, AttributeError | AssertionError, AssertionError
  | DoesNotExist, DoesNotExist
  | MultipleObjectsReturned, MultipleObjectsReturned => true
  | OtherError a, OtherError b => String.eqb a b
  | _, _ => false
  end.

(** [try: r except cls: handler] *)
Definition try_except {A} (r : result A) (cls : exn) (handler : result A)
  : result A :=
  match r with
  | Ok a => Ok a
  | Raise e => if exn_eqb e cls then handler else Raise e
  end.

(** [map(f, l)] of Python 2: eager, left to right, the first exception
    aborts the whole call. *)
Fixpoint map_result {A B} (f : A -> result B) (l : list A) : result (list B) :=
  match l with
  | [] => Ok []
  | x :: l' => bind (f x) (fun y => bind (map_result f l') (fun ys => Ok (y :: ys)))
  end.

(** A [lambda] with [params] positional parameters that ignores them and
    evaluates to [returns].  Calling it with another number of arguments
    is a [TypeError]. *)
Record const_lambda (R : Type) : Type :=
  Lambda { params : nat; returns : R }.
Global Arguments Lambda {R} params returns.
Global Arguments params {R} _.
Global Arguments returns {R} _.

Definition call {R} (f : const_lambda R) (nargs : nat) : result R :=
  if Nat.eqb nargs (params f) then Ok (returns f) else Raise TypeError.

(** Slice bounds as [list.__getitem__] normalises them: a negative bound
    counts from the end, and both are clipped to [0, len]. *)
Definition clip (len i : Z) : Z :=
  if i <? 0 then Z.max (i + len) 0 else Z.min i len.

(** [l[lo:hi]] *)
Definition slice {A} (l : list A) (lo hi : Z) : list A :=
  let len := Z.of_nat (length l) in
  let lo' := clip len lo in
  let hi' := clip len hi in
  take (Z.to_nat (hi' - lo')) (drop (Z.to_nat lo') l).

(** [l[lo:]] and [l[:hi]] *)
Definition slice_from {A} (l : list A) (lo : Z) : list A :=
  drop (Z.to_nat (clip (Z.of_nat (length l)) lo)) l.
Definition slice_to {A} (l : list A) (hi : Z) : list A :=
  take (Z.to_nat (clip (Z.of_nat (length l)) hi)) l.

Definition chars (s : string) : list ascii := list_ascii_of_string s.
Definition str (l : list ascii) : string := string_of_list_ascii l.

Fixpoint list_startswith (l p : list ascii) : bool :=
  match p, l with
  | [], _ => true
  | c :: p', d :: l' => Ascii.eqb c d && list_startswith l' p'
  | _ :: _, [] => false
  end.

(** [s.startswith(p)], [s.endswith(p)] *)
Definition startswith (s p : string) : bool :=
  list_startswith (chars s) (chars p).
Definition endswith (s p : string) : bool :=
  list_startswith (rev (chars s)) (rev (chars p)).

(** [s.split(sep)] for a one-character separator. *)
Fixpoint split_chars (sep : ascii) (cur : list ascii) (l : list ascii)
  : list string :=
  match l with
  | [] => [str (rev cur)]
  | c :: l' =>
      if Ascii.eqb c sep then str (rev cur) :: split_chars sep [] l'
      else split_chars sep (c :: cur) l'
  end.
Definition split (s : string) (sep : ascii) : list string :=
  split_chars sep [] (chars s).

(** [s.replace(a, b)] for one-character [a] and [b]. *)
Definition replace (s : string) (a b : ascii) : string :=
  str (List.map (fun c => if Ascii.eqb c a then b else c) (chars s)).

(** ASCII whitespace, as [str.strip()] and [int()] understand it. *)
Definition is_space (c : ascii) : bool :=
  let n := nat_of_ascii c in
  (Nat.eqb n 32 || (Nat.leb 9 n && Nat.leb n 13))%bool.

Fixpoint lstrip_chars (l : list ascii) : list ascii :=
  match l with
  | c :: l' => if is_space c then lstrip_chars l' else l
  | [] => []
  end.
Definition strip_chars (l : list ascii) : list ascii :=
  rev (lstrip_chars (rev (lstrip_chars l))).
Definition strip (s : string) : string := str (strip_chars (chars s)).

Definition digit (c : ascii) : option Z :=
  let n := nat_of_ascii c in
  if (Nat.leb 48 n && Nat.leb n 57)%bool then Some (Z.of_nat (n - 48)) else None.

Fixpoint digits (acc : Z) (l : list ascii) : option Z :=
  match l with
  | [] => Some acc
  | c :: l' =>
      match digit c with
      | Some d => digits (10 * acc + d) l'
      | None => None
      end
  end.

Definition unsigned (l : list ascii) : result Z :=
  match l with
  | [] => Raise ValueError
  | _ :: _ => match digits 0 l with Some n => Ok n | None => Raise ValueError end
  end.

(** [int(s)] on a string, base 10: surrounding whitespace is dropped, one
    optional sign, then at least one decimal digit; anything else is a
    [ValueError]. *)
Definition int (s : string) : result Z :=
  match strip_chars (chars s) with
  | "-"%char :: l => bind (unsigned l) (fun n => Ok (- n))
  | "+"%char :: l => unsigned l
  | l => unsigned l
  end.

(** Truth value of a string and of an optional integer ([None] and [0]
    are false). *)
Definition truthy_str (s : string) : bool := negb (String.eqb s "").
Definition or_int (a : option Z) (b : Z) : Z :=
  match a with
  | Some n => if n =? 0 then b else n
  | None => b
  end.

End Py.
Export Py.

(** ** Request-parameter coercion *)
Module Request.

(** [request.REQUEST]: a dictionary of strings. *)
Record HttpRequest : Type := { REQUEST : gmap string string }.

(** [request.REQUEST.get(key, default)] *)
Definition REQUEST_get (request : HttpRequest) (key : string) (default : string)
  : string :=
  match REQUEST request !! key with
  | Some v => v
  | None => default
  end.

Definition extract_int (request : HttpRequest) (key : string)
  : result (option Z) :=
  try_except
    (bind (int (REQUEST_get request key "")) (fun n => Ok (Some n)))
    ValueError
    (Ok None).

Definition extract_int_list (request : HttpRequest) (key : string)
  : result (list Z) :=
  map_result int (List.filter truthy_str (split (REQUEST_get request key "") ",")).

Definition int_or_zero (raw_str : string) : result Z :=
  if negb (truthy_str raw_str) then Ok 0 else int raw_str.

Definition int_or_none (raw_str : string) : result (option Z) :=
  if negb (truthy_str raw_str) then Ok None
  else bind (int raw_str) (fun n => Ok (Some n)).

Definition int_list (raw_str : string) : result (list Z) :=
  map_result (fun i => int (strip i)) (split raw_str ",").

Section StrToDate.
(** [datetime.datetime.strptime(s, fmt)], owned by the standard library. *)
Context {datetime : Type}.
Variable strptime : string -> string -> result datetime.

(** [raw_str] may be [None] (a missing request key). *)
Definition str_to_date (raw_str : option string) : result (option datetime) :=
  match raw_str with
  | Some raw_str =>
      if truthy_str raw_str then
        let raw_str := str (slice_to (chars raw_str) 10) in
        let raw_str := replace raw_str "-" "." in
        try_except
          (bind (strptime raw_str "%d.%m.%Y") (fun d => Ok (Some d)))
          ValueError
          (try_except
             (bind (strptime raw_str "%Y.%m.%d") (fun d => Ok (Some d)))
             ValueError
             (Ok None))
      else Ok None
  | None => Ok None
  end.
End StrToDate.

End Request.

(** ** QuerySplitter *)
Module QuerySplitter.
Import Request.

Section Splitter.
Context {A : Type}.

(** The instance: the fields set by [__init__], plus the instance
    attribute [skip_last] that [__iter__] may plant over the method. *)
Record t : Type := Build {
  _data : list A;
  _start : Z;
  _limit : Z;
  _chunk : option (list A);
  _cnt : Z;
  _no_more_data : bool;
  skip_last_attr : option (const_lambda unit)
  }.

Definition set_start (v : Z) (self : t) : t :=
  Build (_data self) v (_limit self) (_chunk self) (_cnt self)
        (_no_more_data self) (skip_last_attr self).
Definition set_chunk (v : option (list A)) (self : t) : t :=
  Build (_data self) (_start self) (_limit self) v (_cnt self)
        (_no_more_data self) (skip_last_attr self).
Definition set_cnt (v : Z) (self : t) : t :=
  Build (_data self) (_start self) (_limit self) (_chunk self) v
        (_no_more_data self) (skip_last_attr self).
Definition set_no_more_data (v : bool) (self : t) : t :=
  Build (_data self) (_start self) (_limit self) (_chunk self) (_cnt self)
        v (skip_last_attr self).
Definition set_skip_last_attr (v : option (const_lambda unit)) (self : t) : t :=
  Build (_data self) (_start self) (_limit self) (_chunk self) (_cnt self)
        (_no_more_data self) v.

Definition __init__ (query : list A) (start limit : Z) : t :=
  Build query start limit None 0 false None.

(** What [for item in query] iterates: a list iterator over [_data], or
    the splitter itself. *)
Inductive iterator : Type :=
  | ListIter (rest : list A)
  | SelfIter.

Definition __iter__ (self : t) : iterator * t :=
  if _limit self =? 0 then
    (ListIter (_data self),
     set_skip_last_attr (Some (Lambda 1%nat tt)) self)
  else (SelfIter, self).

(** [not self._chunk]: [None] and the empty list are both false. *)
Definition chunk_items (c : option (list A)) : list A :=
  match c with
  | Some l => l
  | None => []
  end.
Definition not_chunk (c : option (list A)) : bool :=
  match chunk_items c with
  | [] => true
  | _ :: _ => false
  end.

(** The refill step of [next]. *)
Definition refill (self : t) : t :=
  if (not_chunk (_chunk self) && negb (_no_more_data self))%bool then
    let chunk := slice (_data self) (_start self) (_start self + _limit self) in
    let self := set_chunk (Some chunk) self in
    if Z.of_nat (length chunk) <? _limit self
    then set_no_more_data true self
    else set_start (_start self + _limit self) self
  else self.

Definition next (self : t) : result A * t :=
  if _limit self <=? _cnt self then (Raise StopIteration, self)
  else
    let self := refill self in
    match chunk_items (_chunk self) with
    | item :: rest =>
        (Ok item, set_chunk (Some rest) (set_cnt (_cnt self + 1) self))
    | [] => (Raise StopIteration, self)
    end.

(** The method [skip_last] of the class. *)
Definition skip_last (self : t) : result unit * t :=
  if _cnt self =? 0 then (Raise IndexError, self)
  else (Ok tt, set_cnt (_cnt self - 1) self).

(** The call [query.skip_last()]: attribute lookup finds an instance
    attribute before the method of the class, and an instance attribute
    is not bound, so it receives no argument at all. *)
Definition call_skip_last (self : t) : result unit * t :=
  match skip_last_attr self with
  | Some f => (call f 0%nat, self)
  | None => skip_last self
  end.

Definition iter_next (it : iterator) (self : t) : result A * iterator * t :=
  match it with
  | ListIter [] => (Raise StopIteration, it, self)
  | ListIter (item :: rest) => (Ok item, ListIter rest, self)
  | SelfIter => let '(r, self) := next self in (r, SelfIter, self)
  end.

(** What the splitter has still to hand out: the rest of the chunk, then
    the part of the data the next refills would load. *)
Definition remaining (q : t) : list A :=
  chunk_items (_chunk q) ++
  (if _no_more_data q then [] else drop (Z.to_nat (_start q)) (_data q)).

(** The calls a client can make on an instance, and a run of them,
    results and exceptions dropped. *)
Inductive method : Type :=
  | m_iter
  | m_next
  | m_skip_last.

Definition step (self : t) (m : method) : t :=
  match m with
  | m_iter => snd (__iter__ self)
  | m_next => snd (next self)
  | m_skip_last => snd (call_skip_last self)
  end.

Definition run (self : t) (ms : list method) : t := foldl step self ms.

Context {B : Type}.
Variable row_fabric : A -> B.
Variable validator : A -> bool.

(** The [for] loop of [make_rows]; [None] means the fuel ran out. *)
Fixpoint for_loop (fuel : nat) (it : iterator) (query : t) (rows : list B)
  : option (result (list B)) :=
  match fuel with
  | O => None
  | S fuel =>
      match iter_next it query with
      | (Ok item, it, query) =>
          if validator item then
            for_loop fuel it query (rows ++ [row_fabric item])
          else
            match call_skip_last query with
            | (Ok _, query) => for_loop fuel it query rows
            | (Raise e, _) => Some (Raise e)
            end
      | (Raise StopIteration, _, _) => Some (Ok rows)
      | (Raise e, _, _) => Some (Raise e)
      end
  end.

(** The paging parameters [make_rows] ends up with. *)
Definition paging (request : option HttpRequest) (start limit : Z)
  : result (Z * Z) :=
  match request with
  | Some request =>
      bind (extract_int request "start") (fun v =>
      let start := or_int v start in
      bind (extract_int request "limit") (fun v =>
      let limit := or_int v limit in
      Ok (start, limit)))
  | None => Ok (start, limit)
  end.

(** Every turn of the loop takes one element of [query], and one more
    call ends it, so [S (length query)] turns are enough. *)
Definition make_rows (query : list A) (request : option HttpRequest)
    (start limit : Z) : option (result (list B)) :=
  match paging request start limit with
  | Ok (start, limit) =>
      let query := __init__ query start limit in
      let '(it, query) := __iter__ query in
      for_loop (S (length (_data query))) it query []
  | Raise e => Some (Raise e)
  end.

End Splitter.
Global Arguments t : clear implicits.
Global Arguments iterator : clear implicits.

End QuerySplitter.

(** ** ModelCache *)
Module ModelCache.

Section Cache.
(** [V]: the values of lookup keyword arguments; [Obj]: model instances;
    [World]: whatever the ORM and the factory read and write. *)
Context {V Obj World : Type} `{Countable V}.

(** Keyword arguments: the items of the dictionary, in the order
    [iteritems()] yields them. *)
Definition kwargs : Type := list (string * V).

(** [model.objects.get] on the keyword arguments, [isinstance(new, model)] and [new.id],
    owned by Django. *)
Variable objects_get : kwargs -> World -> result Obj * World.
Variable isinstance_model : Obj -> bool.
Variable id_of : Obj -> option Z.

Definition fabric_t : Type := kwargs -> World -> result Obj * World.

(** [sorted(items, key=lambda i: i[0])]: a stable sort on the first
    component, here by insertion. *)
Fixpoint insert_by_key (i : string * V) (l : list (string * V))
  : list (string * V) :=
  match l with
  | [] => [i]
  | j :: l' =>
      if String.leb (fst i) (fst j) then i :: l else j :: insert_by_key i l'
  end.
Definition sorted_by_key (l : list (string * V)) : list (string * V) :=
  foldr insert_by_key [] l.

Definition _key_for_dict (d : kwargs) : list (string * V) := sorted_by_key d.

(** The order [sorted] is asked to establish. *)
Definition key_le (i j : string * V) : Prop := String.le (fst i) (fst j).

(** The calls that leave the cache: ORM lookups and factory calls. *)
Inductive event : Type :=
  | Lookup (kw : kwargs)
  | Fabric (kw : kwargs).

Record env : Type := Env { world : World; trace : list event }.

Record t : Type := Build {
  _cache : gmap (list (string * V)) (option Obj);
  _last_kwargs : kwargs;
  _fabric : option fabric_t
}.

Definition __init__ (object_fabric : option fabric_t) : t :=
  Build ∅ [] object_fabric.

Definition _get_object (kw : kwargs) (e : env) : result (option Obj) * env :=
  let '(r, w) := objects_get kw (world e) in
  (try_except (bind r (fun o => Ok (Some o))) DoesNotExist (Ok None),
   Env w (trace e ++ [Lookup kw])).

Definition get (self : t) (kw : kwargs) (e : env)
  : result (option Obj) * t * env :=
  let self := Build (_cache self) kw (_fabric self) in
  let key := _key_for_dict kw in
  match _cache self !! key with
  | Some v => (Ok v, self, e)
  | None =>
      match _get_object kw e with
      | (Raise ex, e) => (Raise ex, self, e)
      | (Ok new, e) =>
          let '(new, e) :=
            match new, _fabric self with
            | None, Some fabric =>
                let '(r, w) := fabric kw (world e) in
                (bind r (fun o =>
                   if negb (isinstance_model o) then Raise AssertionError
                   else match id_of o with
                        | None => Raise AssertionError
                        | Some _ => Ok (Some o)
                        end),
                 Env w (trace e ++ [Fabric kw]))
            | _, _ => (Ok new, e)
            end in
          match new with
          | Raise ex => (Raise ex, self, e)
          | Ok new =>
              (Ok new,
               Build (<[key := new]> (_cache self)) (_last_kwargs self)
                     (_fabric self),
               e)
          end
      end
  end.

Definition forget_last (self : t) : t :=
  match _last_kwargs self with
  | [] => self
  | _ :: _ =>
      Build (delete (_key_for_dict (_last_kwargs self)) (_cache self))
            (_last_kwargs self) (_fabric self)
  end.

(** A run of [get] calls, whatever each of them returns or raises. *)
Fixpoint gets (self : t) (kws : list kwargs) (e : env) : t * env :=
  match kws with
  | [] => (self, e)
  | kw :: kws => let '(_, self, e) := get self kw e in gets self kws e
  end.

End Cache.
Global Arguments t : clear implicits.
Global Arguments t V Obj World {_ _}.
Global Arguments env : clear implicits.
Global Arguments event : clear implicits.

End ModelCache.

(** ** TransactionCM *)
Module TransactionCM.

(** What reaches [django.db.transaction]; [alias] is the [using] argument,
    a database alias or [None]. *)
Inductive tx_event : Type :=
  | enter_transaction_management (managed : bool) (alias : option string)
  | commit (alias : option string)
  | rollback (alias : option string).

(** The arguments of [__exit__]: exception type, value and traceback, each
    [None] when the block ended without an exception. *)
Record exc_info : Type := ExcInfo {
  ex_type : option exn;
  ex_value : option string;
  ex_traceback : option string
}.

(** What a catcher may return, with Python's truth value. *)
Inductive value : Type :=
  | VNone
  | VBool (b : bool)
  | VInt (n : Z)
  | VStr (s : string).

Definition truthy (v : value) : bool :=
  match v with
  | VNone => false
  | VBool b => b
  | VInt n => negb (n =? 0)
  | VStr s => truthy_str s
  end.

Record t : Type := Build {
  _using : option string;
  _catcher : exc_info -> value
}.

Definition _default_catcher (args : exc_info) : value :=
  VBool (match ex_type args with None => true | Some _ => false end).

Definition __init__ (alias : option string) (catcher : option (exc_info -> value))
  : t :=
  Build alias (match catcher with Some c => c | None => _default_catcher end).

Definition __enter__ (self : t) (tx : list tx_event) : list tx_event :=
  tx ++ [enter_transaction_management true (_using self)].

Definition __exit__ (self : t) (args : exc_info) (tx : list tx_event)
  : value * list tx_event :=
  let result := _catcher self args in
  if truthy result then (result, tx ++ [commit (_using self)])
  else (result, tx ++ [rollback (_using self)]).

End TransactionCM.

(** ** matcher *)
Module Matcher.

(** One turn of the loop of [make_checker]. *)
Definition make_func (pattern : string) : string -> bool :=
  if endswith pattern "*" then
    (fun p s => startswith s p) (str (slice_to (chars pattern) (-1)))
  else if startswith pattern "*" then
    (fun p s => endswith s p) (str (slice_from (chars pattern) 1))
  else
    (fun p s => String.eqb s p) pattern.

Definition make_checker (patterns : option (list string)) (default : bool)
  : string -> bool :=
  let matchers :=
    List.map make_func (match patterns with Some l => l | None => [] end) in
  match matchers with
  | _ :: _ => fun s => existsb (fun func => func s) matchers
  | [] => fun s => default
  end.

Definition matcher (include exclude : option (list string)) : string -> bool :=
  let must_be_keeped := make_checker include true in
  let must_be_droped := make_checker exclude false in
  fun x => (must_be_keeped x && negb (must_be_droped x))%bool.

(** The patterns as the docstring words them, for comparison. *)
Definition glob (pattern s : string) : Prop :=
  if endswith pattern "*" then
    exists p rest, pattern = (p +:+ "*") /\ s = (p +:+ rest)
  else if startswith pattern "*" then
    exists p rest, pattern = ("*" +:+ p) /\ s = (rest +:+ p)
  else s = pattern.

Definition patterns_of (l : option (list string)) : list string :=
  match l with Some l => l | None => [] end.

Definition permitted_by (include exclude : option (list string)) (s : string)
  : Prop :=
  (patterns_of include = [] \/ exists p, p ∈ patterns_of include /\ glob p s) /\
  ~ (exists p, p ∈ patterns_of exclude /\ glob p s).

End Matcher.

(** ** model_to_dict *)
Module ModelToDict.
Import Matcher.

Section Serializer.
(** [Val]: Python values held by model attributes. *)
Context {Val : Type}.
Variable none : Val.
(** [val.id] and [unicode(val)], which run code of the value's class. *)
Variable attr_id : Val -> result Val.
Variable unicode : Val -> result Val.

(** A field of [_meta.fields]: its [attname], and whether it is an
    instance of [RelatedField]. *)
Record field : Type := Field { attname : string; is_related : bool }.

(** A model instance: the field list of its class, and attribute reads. *)
Record model : Type := Model {
  fields : list field;
  attrgetter : string -> result Val
}.

(** The values of the resulting dictionary: a raw attribute value, or the
    nested dictionary built for a foreign key. *)
Inductive entry : Type :=
  | Raw (val : Val)
  | Nested (d : gmap string Val).

(** [getattr(val, 'id', None)] *)
Definition getattr_id (val : Val) : result Val :=
  try_except (attr_id val) AttributeError (Ok none).

(** The name read for a field: [attname], without its [_id] for a foreign
    key (whose [attname] is asserted to end so). *)
Definition attr_of (fld : field) : result string :=
  if is_related fld then
    if endswith (attname fld) "_id"
    then Ok (str (slice_to (chars (attname fld)) (-3)))
    else Raise AssertionError
  else Ok (attname fld).

(** The value stored for a field once its attribute has been read. *)
Definition value_of (fld : field) (val : Val) : result entry :=
  if is_related fld then
    bind (getattr_id val) (fun i =>
    bind (unicode val) (fun name =>
    Ok (Nested (<["id" := i]> (<["name" := name]> ∅)))))
  else Ok (Raw val).

(** A field whose attribute read raises [AttributeError]. *)
Definition unreadable (obj : model) (fld : field) : bool :=
  match attr_of fld with
  | Ok attr =>
      match attrgetter obj attr with
      | Raise e => exn_eqb e AttributeError
      | Ok _ => false
      end
  | Raise _ => false
  end.

(** The field is read without an exception and [v] is made of its value. *)
Definition stores (obj : model) (fld : field) (v : entry) : Prop :=
  exists attr val,
    attr_of fld = Ok attr /\ attrgetter obj attr = Ok val /\
    value_of fld val = Ok v.

(** The same, in the words of the docstring and without [getattr_id]: the
    foreign key's dictionary has under ['id'] what [val.id] yields, and
    [None] when [val] has no attribute [id]. *)
Definition serialized (obj : model) (fld : field) (v : entry) : Prop :=
  if is_related fld then
    exists base val i name,
      attname fld = (base +:+ "_id") /\ attrgetter obj base = Ok val /\
      (attr_id val = Ok i \/ (attr_id val = Raise AttributeError /\ i = none)) /\
      unicode val = Ok name /\
      v = Nested (<["id" := i]> (<["name" := name]> ∅))
  else exists val, attrgetter obj (attname fld) = Ok val /\ v = Raw val.

(** What can be asked of a field for [model_to_dict] to return: a foreign
    key is named with [_id]; reading the attribute yields a value or raises
    [AttributeError]; [unicode] of a related object yields a value, and
    reading its [id] yields a value or raises [AttributeError]. *)
Definition plain_read (obj : model) (fld : field) : Prop :=
  if is_related fld then
    exists base,
      attname fld = (base +:+ "_id") /\
      (attrgetter obj base = Raise AttributeError \/
       exists val name,
         attrgetter obj base = Ok val /\ unicode val = Ok name /\
         ((exists i, attr_id val = Ok i) \/ attr_id val = Raise AttributeError))
  else
    attrgetter obj (attname fld) = Raise AttributeError \/
    exists val, attrgetter obj (attname fld) = Ok val.

(** The loop over [_meta.fields], [res] being the dictionary so far. *)
Fixpoint serialize (permitted : string -> bool) (obj : model)
    (flds : list field) (res : gmap string entry)
  : result (gmap string entry) :=
  match flds with
  | [] => Ok res
  | fld :: flds =>
      if permitted (attname fld) then
        bind (attr_of fld) (fun attr =>
        match attrgetter obj attr with
        | Raise e =>
            if exn_eqb e AttributeError then serialize permitted obj flds res
            else Raise e
        | Ok val =>
            bind (value_of fld val) (fun val =>
            serialize permitted obj flds (<[attname fld := val]> res))
        end)
      else serialize permitted obj flds res
  end.

Definition model_to_dict (obj : model) (include exclude : option (list string))
  : result (gmap string entry) :=
  let permitted := matcher include exclude in
  serialize permitted obj (fields obj) ∅.

End Serializer.
Global Arguments field : clear implicits.
Global Arguments model : clear implicits.
Global Arguments entry : clear implicits.

End ModelToDict.

(** ** cached_to and modify *)
Module Cached.

Section Attrs.
Context {Val : Type}.

(** An object, as [hasattr], [getattr] and [setattr] see it, is the
    dictionary of its attributes. *)

(** [modify(obj, **kwargs)] *)
Definition modify (obj : gmap string Val) (kwargs : list (string * Val))
  : gmap string Val :=
  foldl (fun obj '(attr, val) => <[attr := val]> obj) obj kwargs.

(** [modifier], the keyword arguments fixed first. *)
Definition modifier (kwargs : list (string * Val))
  : gmap string Val -> gmap string Val :=
  fun obj => modify obj kwargs.


End Attrs.

End Cached.

(** ** Statelessness, as a property of a call on a mutable object *)
Module Stateless.



End Stateless.

(** ** Runs of calls on a splitter, with what they hand out *)
Module SplitterRuns.
Import QuerySplitter.

Section Runs.
Context {A : Type}.

(** The items the [next] calls of a run return, in order. *)
Fixpoint delivered (self : t A) (ms : list method) : list A :=
  match ms with
  | [] => []
  | m :: ms =>
      match m, fst (next self) with
      | m_next, Ok item => item :: delivered (step self m) ms
      | _, _ => delivered (step self m) ms
      end
  end.

(** The number of [skip_last()] calls of a run that return normally. *)
Fixpoint rolled_back (self : t A) (ms : list method) : Z :=
  match ms with
  | [] => 0
  | m :: ms =>
      match m, fst (call_skip_last self) with
      | m_skip_last, Ok _ => 1 + rolled_back (step self m) ms
      | _, _ => rolled_back (step self m) ms
      end
  end.

(** What every call keeps, for a splitter made with [limit > 0] and
    [start >= 0]. *)
Definition sound (limit : Z) (data : list A) (q : t A) : Prop :=
  _limit q = limit /\ _data q = data /\ skip_last_attr q = None /\
  0 <= _start q /\ 0 <= _cnt q <= limit.

End Runs.

End SplitterRuns.

(** ** Runs of calls on a cache *)
Module CacheRuns.
Import ModelCache.

Section Runs.
Context {V Obj World : Type} `{Countable V}.
Variable objects_get : @kwargs V -> World -> result Obj * World.
Variable isinstance_model : Obj -> bool.
Variable id_of : Obj -> option Z.

Inductive call : Type :=
  | call_get (kw : @kwargs V)
  | call_forget_last.

(** A run of [get] and [forget_last] calls, results dropped. *)
Fixpoint calls (self : t V Obj World) (cs : list call) (e : env V World)
  : t V Obj World * env V World :=
  match cs with
  | [] => (self, e)
  | call_get kw :: cs =>
      let '(_, self, e) := get objects_get isinstance_model id_of self kw e in
      calls self cs e
  | call_forget_last :: cs => calls (forget_last self) cs e
  end.

End Runs.
Global Arguments call : clear implicits.

End CacheRuns.

(** ** The [with] statement over a TransactionCM *)
Module WithBlock.
Import TransactionCM.

(** [with TransactionCM(using, catcher): body], as the interpreter runs
    it: [__enter__], the body, then [__exit__] with the exception
    information of the body; a true result of [__exit__] swallows the
    exception of the body, and on a normal end its result is ignored.  The
    body sees the log of transaction calls and may add to it. *)
Definition with_block {R : Type} (self : t)
    (body : list tx_event -> result R * list tx_event) (tx : list tx_event)
  : result (option R) * list tx_event :=
  let tx := __enter__ self tx in
  let '(r, tx) := body tx in
  match r with
  | Ok v =>
      let '(_, tx) := __exit__ self (ExcInfo None None None) tx in
      (Ok (Some v), tx)
  | Raise e =>
      let '(swallow, tx) := __exit__ self (ExcInfo (Some e) None None) tx in
      if truthy swallow then (Ok None, tx) else (Raise e, tx)
  end.

End WithBlock.

(** ** extract_date *)
Module RequestDates.
Import Request.

Section ExtractDate.
Context {datetime date : Type}.
Variable strptime : string -> string -> result datetime.
(** [res.date()] *)
Variable date_of : datetime -> date.

(** What [str_to_date] hands to [strptime]: ten characters at most, dashes
    turned into dots. *)
Definition normalized (raw_str : string) : string :=
  replace (str (slice_to (chars raw_str) 10)) "-" ".".

Definition extract_date (request : HttpRequest) (key : string) (as_date : bool)
  : result (option (datetime + date)) :=
  bind (str_to_date strptime (REQUEST request !! key)) (fun res =>
  match res with
  | Some res =>
      if as_date then Ok (Some (inr (date_of res))) else Ok (Some (inl res))
  | None => Ok None
  end).

End ExtractDate.

End RequestDates.

(** ** find_element_by_type *)
Module Widgets.

Section Tree.
(** [W]: what a UI element is apart from its children. *)
Context {W : Type}.

(** A UI element; [items] is [None] when it has no attribute [items]. *)
Inductive element : Type :=
  | Element (w : W) (items : option (list element)).

Definition items_of (e : element) : option (list element) :=
  match e with Element _ items => items end.

(** [isinstance(item, cls)] *)
Variable isinstance : element -> bool.

(** The body of the function, for a container that has [items]: the loop
    over [container.items], with the recursive call on each item that has
    [items] itself. *)
Fixpoint find (container : element) : list element :=
  match container with
  | Element _ None => []
  | Element _ (Some items) =>
      (fix loop (items : list element) : list element :=
         match items with
         | [] => []
         | item :: rest =>
             (if isinstance item then [item] else []) ++
             (match items_of item with
              | Some _ => find item
              | None => []
              end) ++
             loop rest
         end) items
  end.

(** Reading [container.items] of a container without that attribute is an
    [AttributeError]; this can only happen at the outermost call. *)
Definition find_element_by_type (container : element) : result (list element) :=
  match items_of container with
  | Some _ => Ok (find container)
  | None => Raise AttributeError
  end.

(** For comparison: the elements below a container, each before its own
    children, left to right. *)
Fixpoint descendants (container : element) : list element :=
  match container with
  | Element _ None => []
  | Element _ (Some items) =>
      (fix all (items : list element) : list element :=
         match items with
         | [] => []
         | item :: rest => item :: descendants item ++ all rest
         end) items
  end.

(** The number of elements of a tree. *)
Fixpoint size (e : element) : nat :=
  match e with
  | Element _ None => 1%nat
  | Element _ (Some items) =>
      S ((fix sum (items : list element) : nat :=
            match items with
            | [] => 0%nat
            | item :: rest => (size item + sum rest)%nat
            end) items)
  end.

End Tree.
Global Arguments element : clear implicits.

End Widgets.

(** ** collect_overlaps *)
Module Overlaps.

(** The bounds of an interval: [datetime.date] or [datetime.datetime]
    values, a day number and for a datetime the second of the day. *)
Inductive moment : Type :=
  | Date (day : Z)
  | DateTime (day second : Z).

(** [a <= b]: a date compares with a date and a datetime with a datetime;
    comparing one with the other raises [TypeError]. *)
Definition le (a b : moment) : result bool :=
  match a, b with
  | Date x, Date y => Ok (x <=? y)
  | DateTime x s, DateTime y t => Ok ((x <? y) || ((x =? y) && (s <=? t)))%bool
  | _, _ => Raise TypeError
  end.

(** [isinstance(m, datetime.datetime)] and [m.date()] *)
Definition is_datetime (m : moment) : bool :=
  match m with
  | DateTime _ _ => true
  | Date _ => false
  end.
Definition date (m : moment) : moment :=
  match m with
  | DateTime d _ => Date d
  | Date d => Date d
  end.

(** A model instance: its [id] and its attributes. *)
Record instance : Type := Instance {
  obj_id : option Z;
  attrs : gmap string moment
}.

(** [getattr(obj, attr, None)] *)
Definition getattr (obj : instance) (attr : string) : option moment :=
  attrs obj !! attr.

(** [queryset.exclude(id=pk)] *)
Definition exclude (queryset : list instance) (pk : Z) : list instance :=
  List.filter (fun item => negb (bool_decide (obj_id item = Some pk))) queryset.

(** [a <= b <= c] *)
Definition chain (a b c : moment) : result bool :=
  bind (le a b) (fun r => if r then le b c else Ok false).

(** The local function [add]: the four tests are all evaluated, then
    [any] looks at them. *)
Definition add (obj_bgn obj_end bgn end_ : moment) (item : instance)
    (res : list instance) : result (list instance) :=
  bind (chain bgn obj_bgn end_) (fun c1 =>
  bind (chain bgn obj_end end_) (fun c2 =>
  bind (chain obj_bgn bgn obj_end) (fun c3 =>
  bind (chain obj_bgn end_ obj_end) (fun c4 =>
  Ok (if (c1 || c2 || c3 || c4)%bool then res ++ [item] else res))))).

(** The loop over the queryset.  [obj_bgn] and [obj_end] are variables of
    the function: once turned into dates they stay so for the items that
    follow. *)
Fixpoint loop (attr_begin attr_end : string) (obj_bgn obj_end : moment)
    (items : list instance) (res : list instance) : result (list instance) :=
  match items with
  | [] => Ok res
  | item :: items =>
      match getattr item attr_begin, getattr item attr_end with
      | Some bgn, Some end_ =>
          match add obj_bgn obj_end bgn end_ item res with
          | Ok res => loop attr_begin attr_end obj_bgn obj_end items res
          | Raise e =>
              if exn_eqb e TypeError then
                if (is_datetime obj_bgn && is_datetime obj_end)%bool then
                  let obj_bgn := date obj_bgn in
                  let obj_end := date obj_end in
                  bind (add obj_bgn obj_end bgn end_ item res) (fun res =>
                  loop attr_begin attr_end obj_bgn obj_end items res)
                else loop attr_begin attr_end obj_bgn obj_end items res
              else Raise e
          end
      | _, _ => Raise ValueError
      end
  end.

(** [if obj.id]: [None] and [0] are false. *)
Definition others (obj : instance) (queryset : list instance) : list instance :=
  match obj_id obj with
  | Some pk => if pk =? 0 then queryset else exclude queryset pk
  | None => queryset
  end.

Definition collect_overlaps (obj : instance) (queryset : list instance)
    (attr_begin attr_end : string) : result (list instance) :=
  match getattr obj attr_begin, getattr obj attr_end with
  | Some obj_bgn, Some obj_end =>
      loop attr_begin attr_end obj_bgn obj_end (others obj queryset) []
  | _, _ => Raise ValueError
  end.

(** For comparison: two closed intervals of days meet. *)
Definition meet (obj_bgn obj_end bgn end_ : Z) : bool :=
  ((bgn <=? obj_end) && (obj_bgn <=? end_))%bool.

(** Both bounds of an item are dates, the first not after the second. *)
Definition date_interval (attr_begin attr_end : string) (item : instance)
  : Prop :=
  exists b e, getattr item attr_begin = Some (Date b) /\
              getattr item attr_end = Some (Date e) /\ b <= e.

(** The item's bounds are dates and its interval meets [obj_bgn, obj_end]. *)
Definition meets (attr_begin attr_end : string) (obj_bgn obj_end : Z)
    (item : instance) : bool :=
  match getattr item attr_begin, getattr item attr_end with
  | Some (Date b), Some (Date e) => meet obj_bgn obj_end b e
  | _, _ => false
  end.

End Overlaps.

(** * Proofs *)

(** ** Facts about the prelude *)
Module PyFacts.

Lemma slice_take_drop {A} (l : list A) (lo n : Z) :
  0 <= lo -> 0 <= n ->
  slice l lo (lo + n) = take (Z.to_nat n) (drop (Z.to_nat lo) l).
Proof.
  intros Hlo Hn. unfold slice, clip.
  destruct (Z.ltb_spec lo 0) as [?|_]; [lia|].
  destruct (Z.ltb_spec (lo + n) 0) as [?|_]; [lia|].
  destruct (Z_le_gt_dec lo (Z.of_nat (length l))) as [Hin|Hout].
  - rewrite (Z.min_l lo) by lia.
    destruct (Z_le_gt_dec (lo + n) (Z.of_nat (length l))) as [Hfit|Hover].
    + rewrite Z.min_l by lia. f_equal. lia.
    + rewrite Z.min_r by lia.
      rewrite !take_ge; [reflexivity | |]; rewrite length_drop; lia.
  - rewrite !Z.min_r by lia. rewrite Z.sub_diag. simpl.
    rewrite (drop_ge l (Z.to_nat lo)) by lia. by rewrite take_nil.
Qed.

Lemma str_chars (s : string) : str (chars s) = s.
Proof. apply string_of_list_ascii_of_string. Qed.

Lemma chars_str (l : list ascii) : chars (str l) = l.
Proof. apply list_ascii_of_string_of_list_ascii. Qed.

Lemma chars_app (a b : string) : chars (a +:+ b) = chars a ++ chars b.
Proof.
  induction a as [|c a IH]; [done|].
  change (c :: chars (a +:+ b) = c :: (chars a ++ chars b)). by rewrite IH.
Qed.

Lemma str_app (l1 l2 : list ascii) : str (l1 ++ l2) = str l1 +:+ str l2.
Proof.
  induction l1 as [|c l1 IH]; [done|].
  change (String c (str (l1 ++ l2)) = String c (str l1 +:+ str l2)).
  by rewrite IH.
Qed.

Lemma chars_inj (a b : string) : chars a = chars b -> a = b.
Proof. intros Hab. by rewrite <- (str_chars a), Hab, str_chars. Qed.

Lemma list_startswith_spec (l p : list ascii) :
  list_startswith l p = true <-> exists rest, l = p ++ rest.
Proof.
  revert l. induction p as [|c p IH]; intros l.
  { split; [by exists l|by destruct l]. }
  destruct l as [|d l]; simpl.
  { split; [done|]. by intros [rest Hr]. }
  rewrite andb_true_iff, IH. split.
  - intros [Hcd [rest ->]]. apply Ascii.eqb_eq in Hcd as ->. by exists rest.
  - intros [rest [= -> ->]]. split; [apply Ascii.eqb_refl|by exists rest].
Qed.

Lemma startswith_spec (s p : string) :
  startswith s p = true <-> exists rest, s = p +:+ rest.
Proof.
  unfold startswith. rewrite list_startswith_spec. split.
  - intros [rest Hr]. exists (str rest). apply chars_inj.
    by rewrite chars_app, chars_str.
  - intros [rest ->]. exists (chars rest). apply chars_app.
Qed.

Lemma endswith_spec (s p : string) :
  endswith s p = true <-> exists rest, s = rest +:+ p.
Proof.
  unfold endswith. rewrite list_startswith_spec. split.
  - intros [rest Hr]. exists (str (rev rest)). apply chars_inj.
    rewrite chars_app, chars_str.
    apply (f_equal (@rev ascii)) in Hr.
    by rewrite rev_app_distr, !rev_involutive in Hr.
  - intros [rest ->]. exists (rev (chars rest)).
    by rewrite chars_app, rev_app_distr.
Qed.

(** [l[:-n]] takes a suffix of [n >= 1] elements away. *)
Lemma slice_to_neg {A} (l q p : list A) :
  l = q ++ p -> p <> [] -> slice_to l (- Z.of_nat (length p)) = q.
Proof.
  intros -> Hp. unfold slice_to, clip. rewrite length_app.
  assert (0 < length p)%nat by (destruct p; simpl; [done|lia]).
  destruct (Z.ltb_spec (- Z.of_nat (length p)) 0) as [_|?]; [|lia].
  rewrite Z.max_l by lia.
  replace (Z.to_nat (- Z.of_nat (length p) + Z.of_nat (length q + length p)))
    with (length q) by lia.
  by rewrite take_app_length.
Qed.

Lemma slice_from_1 {A} (x : A) (l : list A) : slice_from (x :: l) 1 = l.
Proof.
  unfold slice_from, clip. simpl length.
  rewrite Z.min_l by lia. done.
Qed.

End PyFacts.

(** ** QuerySplitter *)
Module QuerySplitterFacts.
Import Request QuerySplitter PyFacts.

Section Facts.
Context {A B : Type}.
Variable row_fabric : A -> B.
Variable validator : A -> bool.

Lemma refill_fields (q : t A) :
  _data (refill q) = _data q /\ _limit (refill q) = _limit q /\
  _cnt (refill q) = _cnt q /\ skip_last_attr (refill q) = skip_last_attr q.
Proof.
  unfold refill.
  destruct (not_chunk (_chunk q) && negb (_no_more_data q))%bool; [|done].
  cbv zeta. by destruct (_ <? _).
Qed.

Lemma refill_start (q : t A) :
  0 <= _start q -> 0 < _limit q -> 0 <= _start (refill q).
Proof.
  intros Hs Hl. unfold refill.
  destruct (not_chunk (_chunk q) && negb (_no_more_data q))%bool; [|done].
  cbv zeta. destruct (_ <? _); simpl; lia.
Qed.

Lemma not_chunk_true (c : option (list A)) :
  not_chunk c = true -> chunk_items c = [].
Proof. unfold not_chunk. by destruct (chunk_items c). Qed.

Lemma not_chunk_false (c : option (list A)) :
  not_chunk c = false -> chunk_items c <> [].
Proof. unfold not_chunk. by destruct (chunk_items c). Qed.

Lemma refill_remaining (q : t A) :
  0 <= _start q -> 0 < _limit q ->
  remaining (refill q) = remaining q /\
  (chunk_items (_chunk (refill q)) = [] -> remaining q = []).
Proof.
  intros Hs Hl. unfold refill.
  destruct (not_chunk (_chunk q)) eqn:Hc; simpl.
  - apply not_chunk_true in Hc.
    destruct (_no_more_data q) eqn:Hn; simpl.
    + split; [done|]. intros _. unfold remaining. by rewrite Hc, Hn.
    + rewrite slice_take_drop by lia.
      set (c := take (Z.to_nat (_limit q)) (drop (Z.to_nat (_start q)) (_data q))).
      assert (Hlen : length c =
                Nat.min (Z.to_nat (_limit q))
                        (length (_data q) - Z.to_nat (_start q))).
      { unfold c. by rewrite length_take, length_drop. }
      destruct (Z.ltb_spec (Z.of_nat (length c)) (_limit q)) as [Hshort|Hfull].
      * unfold remaining; simpl. rewrite Hc, Hn. simpl.
        assert (c = drop (Z.to_nat (_start q)) (_data q)) as Hall.
        { unfold c. apply take_ge. rewrite length_drop. lia. }
        rewrite app_nil_r. split; [done|]. intros H0. by rewrite <- Hall.
      * unfold remaining; simpl. rewrite Hc, Hn. simpl.
        replace (Z.to_nat (_start q + _limit q))
          with (Z.to_nat (_start q) + Z.to_nat (_limit q))%nat by lia.
        rewrite <- drop_drop. unfold c. rewrite take_drop.
        split; [done|]. intros H0.
        apply (f_equal length) in H0. fold c in H0. simpl in H0. lia.
  - split; [done|]. intros H0. by apply not_chunk_false in Hc.
Qed.

(** The loop invariant of [make_rows] when the splitter iterates itself:
    with the method [skip_last] in place, the rows still to be appended
    are the first [_limit - _cnt] valid elements of [remaining]. *)
Lemma for_loop_self (fuel : nat) : forall (q : t A) (rows : list B),
  skip_last_attr q = None ->
  0 < _limit q -> 0 <= _start q -> 0 <= _cnt q ->
  (length (remaining q) < fuel)%nat ->
  for_loop row_fabric validator fuel SelfIter q rows =
  Some (Ok (rows ++ List.map row_fabric
              (take (Z.to_nat (_limit q - _cnt q))
                    (List.filter validator (remaining q))))).
Proof.
  induction fuel as [|fuel IH]; intros q rows Hattr Hl Hs Hc Hfuel; [lia|].
  simpl. unfold next.
  destruct (Z.leb_spec (_limit q) (_cnt q)) as [Hdone|Hmore].
  { replace (Z.to_nat (_limit q - _cnt q)) with 0%nat by lia.
    simpl. by rewrite app_nil_r. }
  destruct (refill_fields q) as (Hd' & Hl' & Hc' & Ha').
  destruct (refill_remaining q Hs Hl) as [Hrem Hempty].
  pose proof (refill_start q Hs Hl) as Hs'.
  destruct (chunk_items (_chunk (refill q))) as [|item rest] eqn:Hchunk.
  { rewrite (Hempty eq_refl). simpl. rewrite take_nil. simpl.
    by rewrite app_nil_r. }
  assert (Hq : remaining q = item :: remaining
                 (set_chunk (Some rest) (set_cnt (_cnt (refill q) + 1) (refill q)))).
  { rewrite <- Hrem. unfold remaining. simpl. by rewrite Hchunk. }
  rewrite Hq in Hfuel. simpl in Hfuel.
  rewrite Hq. simpl List.filter.
  destruct (validator item) eqn:Hv.
  - rewrite IH; simpl; try lia; [|by rewrite Ha'].
    rewrite Hl', Hc'.
    replace (Z.to_nat (_limit q - _cnt q))
      with (S (Z.to_nat (_limit q - (_cnt q + 1)))) by lia.
    simpl. by rewrite <- app_assoc.
  - unfold call_skip_last, skip_last. simpl. rewrite Ha', Hattr, Hc'.
    destruct (Z.eqb_spec (_cnt q + 1) 0) as [?|_]; [lia|].
    rewrite IH; simpl; try lia; try (by rewrite Ha').
    + rewrite Hl'. do 5 f_equal. lia.
    + unfold remaining in *. simpl in *. lia.
Qed.

(** C1.  With effective paging parameters [start >= 0] and [limit > 0],
    [make_rows] returns [row_fabric] applied to the first [limit] elements
    at or after position [start] that the validator accepts (all of them
    when there are fewer): rejected elements are skipped and do not count
    against the limit. *)
Theorem make_rows_first_valid (query : list A) (request : option HttpRequest)
    (start limit start' limit' : Z) :
  paging request start limit = Ok (start', limit') ->
  0 <= start' -> 0 < limit' ->
  make_rows row_fabric validator query request start limit =
  Some (Ok (List.map row_fabric
              (take (Z.to_nat limit')
                    (List.filter validator (drop (Z.to_nat start') query))))).
Proof.
  intros Hp Hs Hl. unfold make_rows. rewrite Hp. unfold __iter__.
  change (_limit (__init__ query start' limit')) with limit'.
  destruct (Z.eqb_spec limit' 0) as [?|_]; [lia|].
  rewrite for_loop_self; simpl; try done; try lia.
  - unfold remaining. simpl. by rewrite Z.sub_0_r.
  - unfold remaining. simpl. rewrite length_drop. lia.
Qed.





(** C5.  The method [skip_last] rolls back one delivered item: with a
    non-zero count it returns normally and only lowers the count by one;
    with a count of zero it raises [IndexError] and the splitter is left as
    it was. *)
Theorem skip_last_rolls_back_one (q : t A) :
  (_cnt q <> 0 ->
     skip_last q = (Ok tt, set_cnt (_cnt q - 1) q) /\
     _cnt (snd (skip_last q)) = _cnt q - 1) /\
  (_cnt q = 0 -> skip_last q = (Raise IndexError, q)).
Proof.
  unfold skip_last. split.
  - intros Hc. by destruct (Z.eqb_spec (_cnt q) 0).
  - intros Hc. by destruct (Z.eqb_spec (_cnt q) 0).
Qed.

(** A list iterator hands out the whole list, in order. *)
Lemma for_loop_list (fuel : nat) : forall (l : list A) (q : t A) (rows : list B),
  (length l < fuel)%nat ->
  for_loop row_fabric (fun _ => true) fuel (ListIter l) q rows =
  Some (Ok (rows ++ List.map row_fabric l)).
Proof.
  induction fuel as [|fuel IH]; intros l q rows Hfuel; [lia|].
  destruct l as [|x l]; simpl.
  - by rewrite app_nil_r.
  - rewrite IH; [by rewrite <- app_assoc|simpl in Hfuel; lia].
Qed.

(** C9.  With [limit = 0], [__iter__] returns an iterator over the data
    itself, which yields its elements in order, and plants the stub
    [lambda self: None] as instance attribute [skip_last].  The call
    [skip_last()] on the instance then reaches the stub with no argument:
    it raises [TypeError] instead of doing nothing. *)
Theorem iter_stub_raises_TypeError (query : list A) (start : Z) :
  let '(it, q) := __iter__ (__init__ query start 0) in
  it = ListIter query /\
  for_loop row_fabric (fun _ => true) (S (length query)) it q [] =
    Some (Ok (List.map row_fabric query)) /\
  skip_last_attr q = Some (Lambda 1%nat tt) /\
  call_skip_last q = (Raise TypeError, q).
Proof.
  unfold __iter__. change (_limit (__init__ query start 0)) with 0.
  cbn [Z.eqb]. split; [done|]. split; [|by split].
  change (Some (Ok (List.map row_fabric query)))
    with (Some (Ok ([] ++ List.map row_fabric query))).
  apply (for_loop_list (S (length query))). lia.
Qed.

End Facts.

(** The doctest of the class, through the request. *)
Lemma make_rows_first_valid_witness :
  let query := List.map Z.of_nat (seq 0 50) in
  let request := Some {| REQUEST := {[ "start" := "5"; "limit" := "10" ]} |} in
  paging request 0 25 = Ok (5, 10) /\ 0 <= 5 /\ 0 < 10 /\
  make_rows (fun item => item) Z.odd query request 0 25 =
  Some (Ok [5; 7; 9; 11; 13; 15; 17; 19; 21; 23]).
Proof.
  cbv zeta. split; [reflexivity|]. split; [lia|]. split; [lia|].
  apply (make_rows_first_valid (fun item => item) Z.odd
           (List.map Z.of_nat (seq 0 50))
           (Some {| REQUEST := {[ "start" := "5"; "limit" := "10" ]} |})
           0 25 5 10); [reflexivity|lia|lia].
Defined.


Lemma skip_last_rolls_back_one_witness :
  let q := Build [10; 20] 2 2 (Some [20]) 1 false None in
  _cnt q <> 0 /\ skip_last q = (Ok tt, set_cnt 0 q) /\
  _cnt (snd (skip_last q)) = 0 /\
  skip_last (set_cnt 0 q) = (Raise IndexError, set_cnt 0 q).
Proof.
  cbv zeta. split; [discriminate|].
  destruct (skip_last_rolls_back_one (Build [10; 20] 2 2 (Some [20]) 1 false None))
    as [Hdec _].
  destruct (Hdec ltac:(discriminate)) as [Hcall Hcnt].
  split; [exact Hcall|]. split; [exact Hcnt|].
  destruct (skip_last_rolls_back_one
              (set_cnt 0 (Build [10; 20] 2 2 (Some [20]) 1 false None)))
    as [_ Hzero].
  exact (Hzero eq_refl).
Defined.

End QuerySplitterFacts.

(** ** ModelCache *)
Module ModelCacheFacts.
Import ModelCache.

Section Facts.
Context {V Obj World : Type} `{Countable V}.
Variable objects_get : @kwargs V -> World -> result Obj * World.
Variable isinstance_model : Obj -> bool.
Variable id_of : Obj -> option Z.

Lemma insert_by_key_perm (i : string * V) (l : list (string * V)) :
  insert_by_key i l ≡ₚ i :: l.
Proof.
  induction l as [|j l IH]; simpl; [done|].
  destruct (String.leb i.1 j.1); [done|].
  rewrite IH. apply Permutation_swap.
Qed.

Lemma sorted_by_key_perm (l : list (string * V)) : sorted_by_key l ≡ₚ l.
Proof.
  induction l as [|i l IH]; simpl; [done|].
  by rewrite insert_by_key_perm, IH.
Qed.

Lemma insert_by_key_sorted (i : string * V) (l : list (string * V)) :
  StronglySorted key_le l -> StronglySorted key_le (insert_by_key i l).
Proof.
  induction 1 as [|j l Hl IH Hj]; simpl.
  - repeat constructor.
  - destruct (String.leb i.1 j.1) eqn:Hij.
    + constructor; [by constructor|]. constructor.
      * unfold key_le, String.le. by rewrite Hij.
      * eapply Forall_impl; [exact Hj|]. intros k Hk.
        unfold key_le in *. etrans; [|exact Hk].
        unfold String.le. by rewrite Hij.
    + constructor; [done|].
      rewrite insert_by_key_perm. constructor; [|done].
      unfold key_le. destruct (total String.le j.1 i.1) as [?|Hle]; [done|].
      unfold String.le in Hle. by rewrite Hij in Hle.
Qed.

Lemma sorted_by_key_sorted (l : list (string * V)) :
  StronglySorted key_le (sorted_by_key l).
Proof.
  induction l as [|i l IH]; simpl; [constructor|].
  by apply insert_by_key_sorted.
Qed.

Lemma NoDup_keys_inj (l : list (string * V)) (i j : string * V) :
  NoDup (l.*1) -> i ∈ l -> j ∈ l -> i.1 = j.1 -> i = j.
Proof.
  induction l as [|k l IH]; csimpl; intros Hnd Hi Hj Hij.
  { by apply elem_of_nil in Hi. }
  apply NoDup_cons in Hnd as [Hk Hnd].
  apply elem_of_cons in Hi as [->|Hi]; apply elem_of_cons in Hj as [->|Hj].
  - done.
  - destruct Hk. rewrite Hij. by apply list_elem_of_fmap_2.
  - destruct Hk. rewrite <- Hij. by apply list_elem_of_fmap_2.
  - by apply IH.
Qed.

(** Two dictionaries with the same items have the same key, whatever
    order their items come in. *)
Lemma key_for_dict_perm (kw kw' : @kwargs V) :
  NoDup (kw.*1) -> kw' ≡ₚ kw -> _key_for_dict kw' = _key_for_dict kw.
Proof.
  intros Hnd Hp. unfold _key_for_dict.
  apply (StronglySorted_unique_strong key_le);
    [|apply sorted_by_key_sorted..|by rewrite !sorted_by_key_perm].
  intros i j Hi Hj Hij Hji.
  rewrite sorted_by_key_perm in Hi, Hj. rewrite Hp in Hi.
  apply (NoDup_keys_inj kw); [done..|].
  by apply (anti_symm String.le).
Qed.

(** A cached key is answered from the cache: nothing is looked up,
    nothing is created, the cache is not touched. *)
Lemma get_hit (self : t V Obj World) (kw : kwargs) (e : env V World) v :
  _cache self !! _key_for_dict kw = Some v ->
  get objects_get isinstance_model id_of self kw e = (Ok v, Build (_cache self) kw (_fabric self), e).
Proof. intros Hv. unfold get. simpl. by rewrite Hv. Qed.

(** [get] never overwrites or drops an entry. *)
Lemma get_keeps_entries (self : t V Obj World) (kw : kwargs) (e : env V World) k v :
  _cache self !! k = Some v ->
  _cache (get objects_get isinstance_model id_of self kw e).1.2 !! k = Some v.
Proof.
  intros Hk. unfold get. simpl.
  destruct (_cache self !! _key_for_dict kw) eqn:Hkw; [done|].
  destruct (_get_object objects_get kw e) as [[new|ex] e']; [|done].
  destruct new as [o|]; simpl.
  - rewrite lookup_insert_ne; [done|]. congruence.
  - destruct (_fabric self) as [f|]; simpl.
    + destruct (f kw (world e')) as [[o|ex] w]; simpl; [|done].
      destruct (isinstance_model o); simpl; [|done].
      destruct (id_of o); simpl; [|done].
      rewrite lookup_insert_ne; [done|]. congruence.
    + rewrite lookup_insert_ne; [done|]. congruence.
Qed.

Lemma gets_keeps_entries (kws : list kwargs) :
  forall (self : t V Obj World) (e : env V World) k v,
  _cache self !! k = Some v ->
  _cache (gets objects_get isinstance_model id_of self kws e).1 !! k = Some v.
Proof.
  induction kws as [|kw kws IH]; intros self e k v Hk; [done|].
  simpl. pose proof (get_keeps_entries self kw e k v Hk) as Hget.
  destruct (get objects_get isinstance_model id_of self kw e) as [[r self'] e']. simpl in Hget.
  by apply IH.
Qed.

(** C3.  [get] memoizes by the sorted tuple of its keyword arguments.  A
    call that returns [v] for a key not yet cached has made one ORM
    lookup, taking the object found, or on [DoesNotExist] the object made
    by the factory when there is one and [None] otherwise; it has stored
    [v] under the key.  After any further [get] calls, a [get] whose
    arguments have the same key returns [v] and leaves the world and the
    trace of lookups and factory calls as they were.  Keyword arguments
    that differ only in order have the same key. *)
Theorem get_memoizes (self self1 : t V Obj World) (kw : kwargs)
    (e e1 : env V World) (v : option Obj) :
  _cache self !! _key_for_dict kw = None ->
  get objects_get isinstance_model id_of self kw e = (Ok v, self1, e1) ->
  (exists r w, objects_get kw (world e) = (r, w) /\
     match r with
     | Ok o => v = Some o /\ e1 = Env w (trace e ++ [Lookup kw])
     | Raise DoesNotExist =>
         match _fabric self with
         | Some fabric =>
             exists o w', fabric kw w = (Ok o, w') /\ v = Some o /\
               e1 = Env w' (trace e ++ [Lookup kw; Fabric kw])
         | None => v = None /\ e1 = Env w (trace e ++ [Lookup kw])
         end
     | Raise _ => False
     end) /\
  _cache self1 !! _key_for_dict kw = Some v /\
  (forall kws e2 kw' e3,
     _key_for_dict kw' = _key_for_dict kw ->
     let self2 := (gets objects_get isinstance_model id_of self1 kws e2).1 in
     get objects_get isinstance_model id_of self2 kw' e3 = (Ok v, Build (_cache self2) kw' (_fabric self2), e3)) /\
  (forall kw', NoDup (kw.*1) -> kw' ≡ₚ kw ->
     _key_for_dict kw' = _key_for_dict kw).
Proof.
  intros Hmiss Hget.
  assert (Hstored : _cache self1 !! _key_for_dict kw = Some v /\
    exists r w, objects_get kw (world e) = (r, w) /\
     match r with
     | Ok o => v = Some o /\ e1 = Env w (trace e ++ [Lookup kw])
     | Raise DoesNotExist =>
         match _fabric self with
         | Some fabric =>
             exists o w', fabric kw w = (Ok o, w') /\ v = Some o /\
               e1 = Env w' (trace e ++ [Lookup kw; Fabric kw])
         | None => v = None /\ e1 = Env w (trace e ++ [Lookup kw])
         end
     | Raise _ => False
     end).
  { unfold get in Hget. simpl in Hget. rewrite Hmiss in Hget.
    unfold _get_object in Hget.
    destruct (objects_get kw (world e)) as [r w] eqn:Hr.
    destruct r as [o|ex]; simpl in Hget.
    - inversion Hget; subst; simpl. rewrite lookup_insert_eq.
      split; [done|]. by exists (Ok o), w.
    - destruct ex; simpl in Hget; try discriminate.
      destruct (_fabric self) as [f|] eqn:Hf; simpl in Hget.
      + destruct (f kw w) as [[o|ex] w'] eqn:Hfab; simpl in Hget;
          [|discriminate].
        destruct (isinstance_model o); simpl in Hget; [|discriminate].
        destruct (id_of o); simpl in Hget; [|discriminate].
        inversion Hget; subst; simpl. rewrite lookup_insert_eq.
        split; [done|]. exists (Raise DoesNotExist), w. split; [done|].
        rewrite <- app_assoc. simpl. by exists o, w'.
      + inversion Hget; subst; simpl. rewrite lookup_insert_eq.
        split; [done|]. by exists (Raise DoesNotExist), w. }
  destruct Hstored as [Hstored Hfirst].
  split; [exact Hfirst|]. split; [exact Hstored|]. split.
  - intros kws e2 kw' e3 Hkey self2. apply get_hit. rewrite Hkey.
    by apply gets_keeps_entries.
  - intros kw'. apply key_for_dict_perm.
Qed.

End Facts.

(** A cache over a model with no rows and a factory that creates object 7:
    [get(b=2, a=1)] creates it, [get(a=1, b=2)] finds it in the cache. *)
Lemma get_memoizes_witness :
  let objects_get := fun (_ : @kwargs Z) (w : unit) => (@Raise Z DoesNotExist, w) in
  let isinstance_model := fun _ : Z => true in
  let id_of := fun o : Z => Some o in
  let fabric := fun (_ : @kwargs Z) (w : unit) => (Ok 7, w) in
  let self := __init__ (Some fabric) in
  let kw := [("b", 2); ("a", 1)] in
  let self1 := Build (<[ [("a", 1); ("b", 2)] := Some 7 ]> ∅) kw (Some fabric) in
  _cache self !! _key_for_dict kw = None /\
  get objects_get isinstance_model id_of self kw (Env tt []) =
    (Ok (Some 7), self1, Env tt [Lookup kw; Fabric kw]) /\
  get objects_get isinstance_model id_of self1 [("a", 1); ("b", 2)]
      (Env tt [Lookup kw; Fabric kw]) =
    (Ok (Some 7), Build (_cache self1) [("a", 1); ("b", 2)] (Some fabric),
     Env tt [Lookup kw; Fabric kw]).
Proof.
  cbv zeta. split; [reflexivity|]. split; [reflexivity|].
  destruct (get_memoizes
              (fun (_ : @kwargs Z) (w : unit) => (@Raise Z DoesNotExist, w))
              (fun _ : Z => true) (fun o : Z => Some o)
              (__init__ (Some (fun (_ : @kwargs Z) (w : unit) => (Ok 7, w))))
              (Build (<[ [("a", 1); ("b", 2)] := Some 7 ]> ∅)
                     [("b", 2); ("a", 1)]
                     (Some (fun (_ : @kwargs Z) (w : unit) => (Ok 7, w))))
              [("b", 2); ("a", 1)] (Env tt [])
              (Env tt [Lookup [("b", 2); ("a", 1)]; Fabric [("b", 2); ("a", 1)]])
              (Some 7) eq_refl eq_refl)
    as (_ & _ & Hlater & _).
  exact (Hlater [] (Env tt []) [("a", 1); ("b", 2)]
           (Env tt [Lookup [("b", 2); ("a", 1)]; Fabric [("b", 2); ("a", 1)]])
           eq_refl).
Defined.

End ModelCacheFacts.

(** ** TransactionCM *)
Module TransactionCMFacts.
Import TransactionCM.

Lemma default_catcher_truthy (args : exc_info) :
  truthy (_default_catcher args) = true <-> ex_type args = None.
Proof. unfold _default_catcher. destruct (ex_type args); simpl; split; done. Qed.

(** C6.  [__enter__] starts transaction management on the alias;
    [__exit__] returns what the catcher returns on the exception
    information and sends exactly one more call: [commit] when that value
    is true, [rollback] otherwise.  The default catcher is true exactly
    when the exception type is [None], so without a catcher the
    transaction commits iff the block raised nothing. *)
Theorem exit_commits_iff_catcher_true (alias : option string)
    (catcher : option (exc_info -> value)) (args : exc_info)
    (tx : list tx_event) :
  let self := __init__ alias catcher in
  let verdict := match catcher with
                 | Some c => c args
                 | None => _default_catcher args
                 end in
  __enter__ self tx = tx ++ [enter_transaction_management true alias] /\
  fst (__exit__ self args tx) = verdict /\
  snd (__exit__ self args tx) =
    tx ++ [if truthy verdict then commit alias else rollback alias] /\
  (snd (__exit__ self args tx) = tx ++ [commit alias] <->
     truthy verdict = true) /\
  (snd (__exit__ self args tx) = tx ++ [rollback alias] <->
     truthy verdict = false) /\
  (truthy (_default_catcher args) = true <-> ex_type args = None) /\
  (snd (__exit__ (__init__ alias None) args tx) = tx ++ [commit alias] <->
     ex_type args = None).
Proof.
  cbv zeta. split; [done|]. unfold __exit__, __init__. simpl.
  assert (Hne : forall x y : tx_event, x <> y -> tx ++ [x] <> tx ++ [y]).
  { intros x y Hxy Heq. apply app_inv_head in Heq. congruence. }
  split; [by destruct catcher, (truthy _)|].
  split; [by destruct catcher, (truthy _)|].
  split.
  { destruct catcher; destruct (truthy _); simpl; split; try done;
      intros Heq; by apply Hne in Heq. }
  split.
  { destruct catcher; destruct (truthy _); simpl; split; try done;
      intros Heq; by apply Hne in Heq. }
  split; [apply default_catcher_truthy|].
  unfold _default_catcher. destruct (ex_type args); simpl; split; try done.
  intros Heq. by apply Hne in Heq.
Qed.

End TransactionCMFacts.

(** ** Request-parameter coercion *)
Module RequestFacts.
Import Request.

Lemma unsigned_raises (l : list ascii) (e : exn) :
  unsigned l = Raise e -> e = ValueError.
Proof.
  unfold unsigned. destruct l; [congruence|].
  destruct (digits _ _); congruence.
Qed.

(** [int] on a string has one way to fail. *)
Lemma int_raises (s : string) (e : exn) : int s = Raise e -> e = ValueError.
Proof.
  unfold int.
  destruct (strip_chars (chars s)) as [|[[] [] [] [] [] [] [] []] l];
    eauto using unsigned_raises.
  destruct (unsigned l) as [n|e'] eqn:Hu; simpl; [congruence|].
  intros [= <-]. eauto using unsigned_raises.
Qed.

Lemma map_result_raises {A B} (f : A -> result B) (l : list A) :
  (forall x e, f x = Raise e -> e = ValueError) ->
  (exists x, x ∈ l /\ f x = Raise ValueError) ->
  map_result f l = Raise ValueError.
Proof.
  intros Hf. induction l as [|y l IH]; intros (x & Hx & Hfx).
  { by apply elem_of_nil in Hx. }
  simpl. destruct (f y) as [b|e] eqn:Hy; simpl.
  - apply elem_of_cons in Hx as [->|Hx]; [congruence|].
    rewrite IH; [done|]. by exists x.
  - by rewrite (Hf y e Hy).
Qed.

Lemma truthy_str_true (s : string) : truthy_str s = true <-> s <> "".
Proof.
  unfold truthy_str. destruct (String.eqb_spec s ""); simpl; split; congruence.
Qed.

(** C4, as the code has it.  [extract_int] and [str_to_date] swallow the
    [ValueError] of malformed input and return [None].  [extract_int_list],
    [int_or_zero], [int_or_none] and [int_list] have no handler: the first
    three return their empty value on empty input, and a malformed number
    makes each of the four raise the [ValueError] of [int]. *)
Theorem ValueError_swallowed_or_propagated {datetime : Type}
    (strptime : string -> string -> result datetime)
    (request : HttpRequest) (key : string)
    (raw_date : option string) (raw_str : string) :
  ((exists v, extract_int request key = Ok v) /\
   (int (REQUEST_get request key "") = Raise ValueError ->
      extract_int request key = Ok None)) /\
  (str_to_date strptime raw_date <> Raise ValueError /\
   (forall s, raw_date = Some s ->
      let s' := replace (str (slice_to (chars s) 10)) "-" "." in
      strptime s' "%d.%m.%Y" = Raise ValueError ->
      strptime s' "%Y.%m.%d" = Raise ValueError ->
      str_to_date strptime raw_date = Ok None)) /\
  (int_or_zero "" = Ok 0 /\ int_or_none "" = Ok None /\
   (REQUEST_get request key "" = "" -> extract_int_list request key = Ok [])) /\
  (raw_str <> "" -> int raw_str = Raise ValueError ->
     int_or_zero raw_str = Raise ValueError /\
     int_or_none raw_str = Raise ValueError) /\
  ((exists i, i ∈ split raw_str "," /\ int (strip i) = Raise ValueError) ->
     int_list raw_str = Raise ValueError) /\
  ((exists i, i ∈ split (REQUEST_get request key "") "," /\ i <> "" /\
              int i = Raise ValueError) ->
     extract_int_list request key = Raise ValueError).
Proof.
  repeat apply conj.
  - unfold extract_int.
    destruct (int (REQUEST_get request key "")) as [n|e] eqn:Hi; simpl; eauto.
    rewrite (int_raises _ _ Hi). simpl. eauto.
  - unfold extract_int. by intros ->.
  - unfold str_to_date. destruct raw_date as [s|]; [|done].
    destruct (truthy_str s); [|done].
    destruct (strptime _ "%d.%m.%Y") as [d|e]; simpl; [done|].
    destruct (exn_eqb e ValueError) eqn:He.
    + destruct (strptime _ "%Y.%m.%d") as [d|e']; simpl; [done|].
      destruct (exn_eqb e' ValueError) eqn:He'; [done|].
      intros [= ->]. done.
    + intros [= ->]. done.
  - intros s -> s' H1 H2. unfold str_to_date. fold s'.
    destruct (truthy_str s); [|done]. by rewrite H1, H2.
  - done.
  - done.
  - unfold extract_int_list. by intros ->.
  - intros Hne Hint. apply truthy_str_true in Hne.
    unfold int_or_zero, int_or_none. rewrite Hne. simpl. by rewrite Hint.
  - unfold int_list. apply map_result_raises.
    intros x e. apply int_raises.
  - unfold extract_int_list. intros (i & Hi & Hne & Hint).
    apply map_result_raises; [apply int_raises|].
    exists i. split; [|done].
    apply list_elem_of_In, filter_In. split; [by apply list_elem_of_In|].
    by apply truthy_str_true.
Qed.

(** C4, as stated, fails: a malformed number makes the parsers without a
    handler raise [ValueError]. *)
Lemma int_parsers_raise_ValueError :
  int_or_zero "x" = Raise ValueError /\
  int_or_none "x" = Raise ValueError /\
  int_list "1,x" = Raise ValueError /\
  int_list "" = Raise ValueError /\
  extract_int_list {| REQUEST := {[ "ids" := "1,x" ]} |} "ids" =
    Raise ValueError.
Proof. repeat split; vm_compute; reflexivity. Qed.

(** A request with a malformed [limit] and a malformed list, and a
    [strptime] that rejects everything. *)
Lemma ValueError_swallowed_or_propagated_witness :
  let strptime := fun _ _ : string => @Raise unit ValueError in
  let request := {| REQUEST := {[ "limit" := "ten"; "ids" := "1,x" ]} |} in
  extract_int request "limit" = Ok None /\
  str_to_date strptime (Some "31-12-2012") = Ok None /\
  int_or_zero "ten" = Raise ValueError /\
  int_or_none "ten" = Raise ValueError /\
  int_list "1, x" = Raise ValueError /\
  extract_int_list request "ids" = Raise ValueError.
Proof.
  cbv zeta.
  destruct (ValueError_swallowed_or_propagated
              (fun _ _ : string => @Raise unit ValueError)
              {| REQUEST := {[ "limit" := "ten"; "ids" := "1,x" ]} |}
              "limit" (Some "31-12-2012") "ten")
    as ((_ & Hint) & (_ & Hdate) & _ & Hparse & _ & _).
  destruct (ValueError_swallowed_or_propagated
              (fun _ _ : string => @Raise unit ValueError)
              {| REQUEST := {[ "limit" := "ten"; "ids" := "1,x" ]} |}
              "ids" None "1, x")
    as (_ & _ & _ & _ & Hlist & Hreq).
  split; [exact (Hint eq_refl)|].
  split; [exact (Hdate "31-12-2012" eq_refl eq_refl eq_refl)|].
  destruct (Hparse ltac:(discriminate) eq_refl) as [Hzero Hnone].
  split; [exact Hzero|]. split; [exact Hnone|].
  split.
  - apply Hlist. exists " x". split; [|reflexivity].
    apply (bool_decide_unpack _). vm_compute. reflexivity.
  - apply Hreq. exists "x". split; [|split; [discriminate|reflexivity]].
    apply (bool_decide_unpack _). vm_compute. reflexivity.
Defined.

End RequestFacts.

(** ** matcher *)
Module MatcherFacts.
Import Matcher PyFacts.

Lemma append_inj_l (a b c : string) : a +:+ c = b +:+ c -> a = b.
Proof.
  intros Heq. apply chars_inj. apply (f_equal chars) in Heq.
  rewrite !chars_app in Heq. by apply app_inv_tail in Heq.
Qed.

Lemma endswith_strip (s p : string) :
  p <> "" -> endswith s p = true ->
  s = str (slice_to (chars s) (- Z.of_nat (length (chars p)))) +:+ p.
Proof.
  intros Hp [rest ->]%endswith_spec.
  rewrite (slice_to_neg _ (chars rest) (chars p)).
  - by rewrite str_chars.
  - apply chars_app.
  - intros Hnil. apply Hp. apply chars_inj. by rewrite Hnil.
Qed.

(** Each pattern is matched the way the docstring says. *)
Lemma make_func_glob (pattern s : string) :
  make_func pattern s = true <-> glob pattern s.
Proof.
  unfold make_func, glob.
  destruct (endswith pattern "*") eqn:Hend.
  - pose proof (endswith_strip pattern "*" ltac:(done) Hend) as Hp.
    change (- Z.of_nat (length (chars "*"))) with (-1) in Hp.
    rewrite startswith_spec. split.
    + intros [rest ->]. eauto.
    + intros (p & rest & Hpat & ->). exists rest. f_equal.
      apply (append_inj_l _ _ "*"). by rewrite <- Hp.
  - destruct (startswith pattern "*") eqn:Hstart.
    + apply startswith_spec in Hstart as [q ->].
      change (chars ("*" +:+ q)) with ("*"%char :: chars q).
      rewrite slice_from_1, str_chars, endswith_spec. split.
      * intros [rest ->]. by exists q, rest.
      * intros (p & rest & Hq & ->). apply (inj (String.app "*")) in Hq.
        subst q. by exists rest.
    + apply String.eqb_eq.
Qed.

Lemma make_checker_spec (patterns : option (list string)) (default : bool)
    (s : string) :
  make_checker patterns default s = true <->
  (patterns_of patterns = [] /\ default = true) \/
  (exists p, p ∈ patterns_of patterns /\ glob p s).
Proof.
  unfold make_checker. fold (patterns_of patterns).
  destruct (patterns_of patterns) as [|p0 ps] eqn:Hps; simpl.
  { split; [by left|]. intros [[_ ?]|(p & Hp & _)]; [done|].
    by apply elem_of_nil in Hp. }
  rewrite orb_true_iff, existsb_exists. split.
  - intros [H0|(f & Hf & Hfs)].
    + right. exists p0. split; [by left|]. by apply make_func_glob.
    + apply in_map_iff in Hf as (p & <- & Hp). right. exists p.
      split; [right; by apply list_elem_of_In|]. by apply make_func_glob.
  - intros [[? _]|(p & Hp & Hg)]; [done|].
    apply make_func_glob in Hg.
    apply elem_of_cons in Hp as [->|Hp]; [by left|].
    right. exists (make_func p). split; [|done].
    apply in_map. by apply list_elem_of_In.
Qed.

(** [matcher] keeps what an include pattern matches (everything when there
    is none) and no exclude pattern matches. *)
Lemma matcher_permitted (include exclude : option (list string)) (s : string) :
  matcher include exclude s = true <-> permitted_by include exclude s.
Proof.
  unfold matcher, permitted_by.
  rewrite andb_true_iff, negb_true_iff, make_checker_spec.
  rewrite <- not_true_iff_false, make_checker_spec. split.
  - intros [[[? _]|?] Hex]; (split; [eauto|]); intros Hp; apply Hex; eauto.
  - intros [[?|?] Hex]; (split; [eauto|]).
    + intros [[_ ?]|?]; [done|]. by apply Hex.
    + intros [[_ ?]|?]; [done|]. by apply Hex.
Qed.

End MatcherFacts.

(** ** model_to_dict *)
Module ModelToDictFacts.
Import Matcher ModelToDict PyFacts MatcherFacts.

Section Facts.
Context {Val : Type}.
Variable none : Val.
Variable attr_id : Val -> result Val.
Variable unicode : Val -> result Val.

Lemma exn_eqb_eq (e1 e2 : exn) : exn_eqb e1 e2 = true <-> e1 = e2.
Proof.
  destruct e1, e2; simpl; split; try done.
  - intros ->%String.eqb_eq. done.
  - intros [= ->]. apply String.eqb_refl.
Qed.

Lemma stores_functional (obj : model Val) (fld : field) (v v' : entry Val) :
  stores none attr_id unicode obj fld v ->
  stores none attr_id unicode obj fld v' -> v = v'.
Proof. intros (a & x & Ha & Hx & Hv) (a' & x' & Ha' & Hx' & Hv'). congruence. Qed.

(** [getattr(val, 'id', None)] yields [val.id], and [None] exactly when
    reading [val.id] raises [AttributeError]. *)
Lemma getattr_id_Ok (val i : Val) :
  getattr_id none attr_id val = Ok i <->
  attr_id val = Ok i \/ (attr_id val = Raise AttributeError /\ i = none).
Proof.
  unfold getattr_id, try_except. destruct (attr_id val) as [j|e].
  - split; [by left|]. by intros [?|[? _]].
  - destruct (exn_eqb e AttributeError) eqn:He.
    + apply exn_eqb_eq in He as ->. split.
      * intros [= <-]. by right.
      * by intros [?|[_ ->]].
    + split; [done|]. intros [?|[[= ->] _]]; done.
Qed.

(** The name read for a foreign key is its [attname] less [_id]. *)
Lemma attr_of_related (fld : field) (attr : string) :
  is_related fld = true ->
  attr_of fld = Ok attr <-> attname fld = (attr +:+ "_id").
Proof.
  intros Hrel. unfold attr_of. rewrite Hrel. split.
  - destruct (endswith (attname fld) "_id") eqn:Hend; [|done].
    intros [= <-].
    pose proof (endswith_strip _ "_id" ltac:(done) Hend) as Hname.
    by change (- Z.of_nat (length (chars "_id"))) with (-3) in Hname.
  - intros Hname.
    assert (Hend : endswith (attname fld) "_id" = true).
    { apply endswith_spec. by exists attr. }
    rewrite Hend.
    pose proof (endswith_strip _ "_id" ltac:(done) Hend) as Hname'.
    change (- Z.of_nat (length (chars "_id"))) with (-3) in Hname'.
    rewrite Hname in Hname' at 1. apply append_inj_l in Hname'.
    by rewrite <- Hname'.
Qed.

(** [stores] says what the docstring says. *)
Lemma stores_serialized (obj : model Val) (fld : field) (v : entry Val) :
  stores none attr_id unicode obj fld v <->
  serialized none attr_id unicode obj fld v.
Proof.
  unfold stores, serialized. destruct (is_related fld) eqn:Hrel.
  - split.
    + intros (attr & val & Ha & Hval & Hv).
      apply attr_of_related in Ha; [|done].
      unfold value_of in Hv. rewrite Hrel in Hv.
      destruct (getattr_id none attr_id val) as [i|] eqn:Hi; [|done].
      destruct (unicode val) as [name|] eqn:Hn; [|done].
      simpl in Hv. injection Hv as <-.
      apply getattr_id_Ok in Hi. by exists attr, val, i, name.
    + intros (base & val & i & name & Hbase & Hval & Hi & Hn & ->).
      apply getattr_id_Ok in Hi.
      exists base, val. split; [by apply attr_of_related|]. split; [done|].
      unfold value_of. by rewrite Hrel, Hi, Hn.
  - unfold attr_of, value_of. rewrite Hrel. split.
    + intros (attr & val & [= <-] & Hval & [= <-]). by exists val.
    + intros (val & Hval & ->). by exists (attname fld), val.
Qed.

Lemma unreadable_spec (obj : model Val) (fld : field) :
  unreadable obj fld = true <->
  exists attr, attr_of fld = Ok attr /\ attrgetter obj attr = Raise AttributeError.
Proof.
  unfold unreadable. destruct (attr_of fld) as [attr|e].
  - destruct (attrgetter obj attr) as [val|e] eqn:Hval.
    + split; [done|]. intros (a & [= <-] & Ha). congruence.
    + rewrite exn_eqb_eq. split.
      * intros ->. by exists attr.
      * intros (a & [= <-] & Ha). congruence.
  - split; [done|]. by intros (a & [=] & _).
Qed.

(** [plain_read] is what the loop needs of a field to go on: its read
    raises [AttributeError], or a value is stored for it. *)
Lemma plain_read_spec (obj : model Val) (fld : field) :
  plain_read attr_id unicode obj fld <->
  unreadable obj fld = true \/ exists v, stores none attr_id unicode obj fld v.
Proof.
  rewrite unreadable_spec. unfold plain_read, stores.
  destruct (is_related fld) eqn:Hrel.
  - split.
    + intros (base & Hname & [Hraise|(val & name & Hval & Hn & Hid)]).
      * left. exists base. split; [by apply attr_of_related|done].
      * right.
        assert (exists i, getattr_id none attr_id val = Ok i) as [i Hi].
        { destruct Hid as [[i Hi]|Hi]; [exists i|exists none];
            apply getattr_id_Ok; eauto. }
        exists (Nested (<["id" := i]> (<["name" := name]> ∅))), base, val.
        split; [by apply attr_of_related|]. split; [done|].
        unfold value_of. by rewrite Hrel, Hi, Hn.
    + intros [(attr & Ha & Hr)|(v & attr & val & Ha & Hval & Hv)].
      * exists attr. split; [by apply attr_of_related|by left].
      * exists attr. split; [by apply attr_of_related|]. right.
        unfold value_of in Hv. rewrite Hrel in Hv.
        destruct (getattr_id none attr_id val) as [i|] eqn:Hi; [|done].
        destruct (unicode val) as [name|] eqn:Hn; [|done].
        exists val, name. split; [done|]. split; [done|].
        apply getattr_id_Ok in Hi as [Hi|[Hi _]]; eauto.
  - unfold attr_of. rewrite Hrel. split.
    + intros [Hr|(val & Hval)].
      * left. by exists (attname fld).
      * right. exists (Raw val), (attname fld), val.
        unfold value_of. by rewrite Hrel.
    + intros [(attr & [= <-] & Hr)|(v & attr & val & [= <-] & Hval & _)]; eauto.
Qed.

(** The loop, entry by entry: the result holds what a permitted field of
    the list stores, and what was there before under other names. *)
Lemma serialize_entries (permitted : string -> bool) (obj : model Val)
    (flds : list field) :
  forall res0 res : gmap string (entry Val),
  NoDup (attname <$> flds) ->
  serialize none attr_id unicode permitted obj flds res0 = Ok res ->
  forall k v,
    res !! k = Some v <->
    (exists fld, fld ∈ flds /\ attname fld = k /\ permitted k = true /\
                 stores none attr_id unicode obj fld v) \/
    (res0 !! k = Some v /\
     ~ exists fld v', fld ∈ flds /\ attname fld = k /\ permitted k = true /\
                      stores none attr_id unicode obj fld v').
Proof.
  induction flds as [|fld flds IH]; intros res0 res Hnd Hser k v.
  { injection Hser as <-. split; [|by intros [(? & []%elem_of_nil & _)|[? _]]].
    intros Hk. right. split; [done|]. by intros (? & ? & []%elem_of_nil & _). }
  apply NoDup_cons in Hnd as [Hfresh Hnd]. simpl in Hser.
  assert (Hskip : serialize none attr_id unicode permitted obj flds res0 = Ok res ->
    (forall v', permitted (attname fld) = true ->
                ~ stores none attr_id unicode obj fld v') ->
    res !! k = Some v <->
    (exists fld', fld' ∈ fld :: flds /\ attname fld' = k /\ permitted k = true /\
                 stores none attr_id unicode obj fld' v) \/
    (res0 !! k = Some v /\
     ~ exists fld' v', fld' ∈ fld :: flds /\ attname fld' = k /\
                      permitted k = true /\
                      stores none attr_id unicode obj fld' v')).
  { intros Hser' Hno. rewrite (IH _ _ Hnd Hser' k v). split.
    - intros [(f & Hf & Hk & Hp & Hs)|[Hk Hnone]].
      + left. exists f. by rewrite elem_of_cons; eauto.
      + right. split; [done|]. intros (f & v' & Hf & Hfk & Hp & Hs).
        apply elem_of_cons in Hf as [->|Hf].
        * subst k. by apply (Hno v').
        * apply Hnone. eauto 10.
    - intros [(f & Hf & Hk & Hp & Hs)|[Hk Hnone]].
      + apply elem_of_cons in Hf as [->|Hf].
        * subst k. by destruct (Hno v).
        * left. eauto.
      + right. split; [done|]. intros (f & v' & Hf & Hrest).
        apply Hnone. exists f, v'. by rewrite elem_of_cons; eauto. }
  destruct (permitted (attname fld)) eqn:Hperm;
    [|by apply Hskip]. 
  destruct (attr_of fld) as [attr|] eqn:Hattr; simpl in Hser; [|done].
  destruct (attrgetter obj attr) as [val|e] eqn:Hval.
  2:{ destruct (exn_eqb e AttributeError); [|done].
      apply Hskip; [done|]. intros v' _ (a & x & Ha & Hx & _). congruence. }
  destruct (value_of none attr_id unicode fld val) as [v0|] eqn:Hv0;
    simpl in Hser; [|done].
  assert (Hst : stores none attr_id unicode obj fld v0) by (by exists attr, val).
  rewrite (IH _ _ Hnd Hser k v).
  destruct (decide (attname fld = k)) as [Heq|Hneq].
  - subst k. rewrite lookup_insert_eq. split.
    + intros [(f & Hf & Hk & _)|[[= <-] _]].
      * destruct Hfresh. rewrite <- Hk. by apply list_elem_of_fmap_2.
      * left. exists fld. split; [by left|done].
    + intros [(f & Hf & Hk & Hp & Hs)|[_ Hnone]].
      * apply elem_of_cons in Hf as [->|Hf].
        -- right. split; [by rewrite (stores_functional _ _ _ _ Hs Hst)|].
           intros (f & v' & Hf & Hk' & _). destruct Hfresh.
           rewrite <- Hk'. by apply list_elem_of_fmap_2.
        -- destruct Hfresh. rewrite <- Hk. by apply list_elem_of_fmap_2.
      * destruct Hnone. exists fld, v0. split; [by left|done].
  - rewrite lookup_insert_ne by done. split.
    + intros [(f & Hf & Hrest)|[Hk Hnone]].
      * left. exists f. by rewrite elem_of_cons; eauto.
      * right. split; [done|]. intros (f & v' & Hf & Hk' & Hrest).
        apply elem_of_cons in Hf as [->|Hf]; [done|].
        apply Hnone. eauto 10.
    + intros [(f & Hf & Hk & Hrest)|[Hk Hnone]].
      * apply elem_of_cons in Hf as [->|Hf]; [done|]. left. eauto.
      * right. split; [done|]. intros (f & v' & Hf & Hrest).
        apply Hnone. exists f, v'. by rewrite elem_of_cons; eauto.
Qed.

(** The loop returns a dictionary when every permitted field of the list
    is [plain_read] ... *)
Lemma serialize_returns (permitted : string -> bool) (obj : model Val)
    (flds : list field) :
  (forall fld, fld ∈ flds -> permitted (attname fld) = true ->
               plain_read attr_id unicode obj fld) ->
  forall res0, exists res,
    serialize none attr_id unicode permitted obj flds res0 = Ok res.
Proof.
  induction flds as [|fld flds IH]; intros Hall res0; simpl; [by eexists|].
  assert (Hrest : forall res0, exists res,
            serialize none attr_id unicode permitted obj flds res0 = Ok res).
  { apply IH. intros f Hf. apply Hall. by right. }
  destruct (permitted (attname fld)) eqn:Hp; [|apply Hrest].
  destruct (proj1 (plain_read_spec obj fld) (Hall fld ltac:(by left) Hp))
    as [Hun|(v & attr & val & Ha & Hval & Hv)].
  - apply unreadable_spec in Hun as (attr & Ha & Hr).
    rewrite Ha. simpl. rewrite Hr. simpl. apply Hrest.
  - rewrite Ha. simpl. rewrite Hval, Hv. simpl. apply Hrest.
Qed.

(** ... and only then. *)
Lemma serialize_Ok_plain_read (permitted : string -> bool) (obj : model Val)
    (flds : list field) :
  forall res0 res,
  serialize none attr_id unicode permitted obj flds res0 = Ok res ->
  forall fld, fld ∈ flds -> permitted (attname fld) = true ->
              plain_read attr_id unicode obj fld.
Proof.
  induction flds as [|fld flds IH]; intros res0 res Hser f Hf Hp.
  { by apply elem_of_nil in Hf. }
  simpl in Hser. apply elem_of_cons in Hf as [->|Hf].
  - rewrite Hp in Hser. apply plain_read_spec.
    destruct (attr_of fld) as [attr|] eqn:Ha; [|done]. simpl in Hser.
    destruct (attrgetter obj attr) as [val|e] eqn:Hval.
    + destruct (value_of none attr_id unicode fld val) as [v|] eqn:Hv; [|done].
      right. by exists v, attr, val.
    + destruct (exn_eqb e AttributeError) eqn:He; [|done].
      apply exn_eqb_eq in He as ->. left. apply unreadable_spec. eauto.
  - destruct (permitted (attname fld)); [|eauto].
    destruct (attr_of fld) as [attr|]; [|done]. simpl in Hser.
    destruct (attrgetter obj attr) as [val|e].
    + destruct (value_of none attr_id unicode fld val); [|done].
      simpl in Hser. eauto.
    + destruct (exn_eqb e AttributeError); [|done]. eauto.
Qed.

Lemma NoDup_fmap_inj {X Y} (f : X -> Y) (l : list X) (x y : X) :
  NoDup (f <$> l) -> x ∈ l -> y ∈ l -> f x = f y -> x = y.
Proof.
  induction l as [|z l IH]; csimpl; intros Hnd Hx Hy Hxy.
  { by apply elem_of_nil in Hx. }
  apply NoDup_cons in Hnd as [Hz Hnd].
  apply elem_of_cons in Hx as [->|Hx]; apply elem_of_cons in Hy as [->|Hy].
  - done.
  - destruct Hz. rewrite Hxy. by apply list_elem_of_fmap_2.
  - destruct Hz. rewrite <- Hxy. by apply list_elem_of_fmap_2.
  - by apply IH.
Qed.

(** What the loop leaves under the attname of a field of the list. *)
Lemma serialize_field (permitted : string -> bool) (obj : model Val)
    (flds : list field) (res : gmap string (entry Val)) (fld : field) :
  NoDup (attname <$> flds) ->
  serialize none attr_id unicode permitted obj flds ∅ = Ok res ->
  fld ∈ flds ->
  (unreadable obj fld = true -> res !! attname fld = None) /\
  (forall v, permitted (attname fld) = true ->
             stores none attr_id unicode obj fld v ->
             res !! attname fld = Some v).
Proof.
  intros Hnd Hres Hfld. split.
  - intros Hun. destruct (res !! attname fld) as [v|] eqn:Hv; [|done].
    apply (serialize_entries _ _ _ _ _ Hnd Hres) in Hv
      as [(fld' & Hfld' & Hk & _ & Hst)|[[=] _]].
    assert (fld' = fld) as -> by (by apply (NoDup_fmap_inj attname flds)).
    destruct Hst as (attr & val & Hattr & Hval & _).
    unfold unreadable in Hun. by rewrite Hattr, Hval in Hun.
  - intros v Hp Hst. apply (serialize_entries _ _ _ _ _ Hnd Hres). left.
    by exists fld.
Qed.

(** C7.  [model_to_dict] goes through the field list of the object's
    class.  It returns a dictionary exactly when every field whose attname
    matches an include pattern (or there is none) and no exclude pattern is a
    [plain_read]: a related object without [id] does not make it raise.  The
    dictionary holds under a name [k] exactly what the permitted field of
    attname [k] yields: the attribute value itself for a plain field, and for
    a foreign key the dictionary with ['id'] (the related object's [id], or
    [None] when reading it raises [AttributeError]) and ['name'] (its
    [unicode]), read from the attribute named without [_id]; a field whose
    read raises [AttributeError] yields nothing. *)
Theorem model_to_dict_entries (obj : model Val)
    (include exclude : option (list string)) :
  ((exists res, model_to_dict none attr_id unicode obj include exclude = Ok res) <->
   (forall fld, fld ∈ fields obj ->
                permitted_by include exclude (attname fld) ->
                plain_read attr_id unicode obj fld)) /\
  (NoDup (attname <$> fields obj) ->
   forall res,
   model_to_dict none attr_id unicode obj include exclude = Ok res ->
   forall k v,
     res !! k = Some v <->
     exists fld, fld ∈ fields obj /\ attname fld = k /\
                 permitted_by include exclude k /\
                 serialized none attr_id unicode obj fld v).
Proof.
  unfold model_to_dict. split; [split|].
  - intros [res Hres] fld Hfld Hp.
    apply (serialize_Ok_plain_read _ _ _ _ _ Hres fld Hfld).
    by apply matcher_permitted.
  - intros Hall. apply serialize_returns. intros fld Hfld Hp.
    apply Hall; [done|]. by apply matcher_permitted.
  - intros Hnd res Hres k v.
    rewrite (serialize_entries _ _ _ _ _ Hnd Hres k v). split.
    + intros [(fld & Hf & Hk & Hp & Hs)|[[=] _]].
      exists fld. by rewrite <- matcher_permitted, <- stores_serialized.
    + intros (fld & Hf & Hk & Hp & Hs). left.
      exists fld. by rewrite matcher_permitted, stores_serialized.
Qed.

Lemma getattr_id_not_AttributeError (val : Val) :
  getattr_id none attr_id val <> Raise AttributeError.
Proof.
  unfold getattr_id, try_except. destruct (attr_id val) as [i|e]; [done|].
  destruct (exn_eqb e AttributeError) eqn:He; [done|].
  intros [= ->]. done.
Qed.

Lemma serialize_not_AttributeError (permitted : string -> bool)
    (obj : model Val) (flds : list field) :
  (forall val, unicode val <> Raise AttributeError) ->
  forall res0,
  serialize none attr_id unicode permitted obj flds res0 <> Raise AttributeError.
Proof.
  intros Huni. induction flds as [|fld flds IH]; intros res0; simpl; [done|].
  destruct (permitted (attname fld)); [|apply IH].
  unfold attr_of.
  assert (Hread : forall attr,
    match attrgetter obj attr with
    | Ok val =>
        bind (value_of none attr_id unicode fld val)
          (fun val0 => serialize none attr_id unicode permitted obj flds
                         (<[attname fld:=val0]> res0))
    | Raise e =>
        if exn_eqb e AttributeError
        then serialize none attr_id unicode permitted obj flds res0
        else Raise e
    end <> Raise AttributeError).
  { intros attr. destruct (attrgetter obj attr) as [val|e].
    - unfold value_of. destruct (is_related fld); simpl; [|apply IH].
      pose proof (getattr_id_not_AttributeError val) as Hid.
      destruct (getattr_id none attr_id val) as [i|e]; simpl; [|congruence].
      specialize (Huni val).
      destruct (unicode val) as [name|e]; simpl; [apply IH|congruence].
    - destruct (exn_eqb e AttributeError) eqn:He; [apply IH|].
      intros [= ->]. done. }
  destruct (is_related fld); simpl; [|apply Hread].
  destruct (endswith (attname fld) "_id"); simpl; [apply Hread|done].
Qed.

Lemma serialize_attrgetter (permitted : string -> bool) (obj obj' : model Val)
    (flds : list field) :
  attrgetter obj' = attrgetter obj ->
  forall res0,
  serialize none attr_id unicode permitted obj' flds res0 =
  serialize none attr_id unicode permitted obj flds res0.
Proof.
  intros Hg. induction flds as [|fld flds IH]; intros res0; simpl; [done|].
  destruct (permitted (attname fld)); [|apply IH].
  destruct (attr_of fld) as [attr|]; simpl; [|done]. rewrite Hg.
  destruct (attrgetter obj attr) as [val|e].
  - destruct (value_of none attr_id unicode fld val); simpl; [apply IH|done].
  - destruct (exn_eqb e AttributeError); [apply IH|done].
Qed.

Lemma serialize_filter_unreadable (permitted : string -> bool)
    (obj : model Val) (flds : list field) :
  forall res0,
  serialize none attr_id unicode permitted obj flds res0 =
  serialize none attr_id unicode permitted obj
    (List.filter (fun fld => negb (unreadable obj fld)) flds) res0.
Proof.
  induction flds as [|fld flds IH]; intros res0; [done|].
  simpl. unfold unreadable at 1.
  destruct (attr_of fld) as [attr|e] eqn:Hattr; simpl.
  - destruct (attrgetter obj attr) as [val|e] eqn:Hval; simpl.
    + rewrite Hattr. simpl. rewrite Hval.
      destruct (permitted (attname fld)); [|apply IH].
      destruct (value_of none attr_id unicode fld val); simpl; [apply IH|done].
    + destruct (exn_eqb e AttributeError) eqn:He; simpl.
      * destruct (permitted (attname fld)); apply IH.
      * rewrite Hattr. simpl. rewrite Hval, He.
        destruct (permitted (attname fld)); [done|apply IH].
  - rewrite Hattr. simpl. destruct (permitted (attname fld)); [done|apply IH].
Qed.

(** C10.  An [AttributeError] raised by reading a field's value never
    leaves [model_to_dict] (no [AttributeError] leaves it at all unless
    [unicode] raises one): the result is the one obtained from the field
    list without the fields whose read raises [AttributeError], and those
    fields are absent from the dictionary.  The other permitted fields are
    still serialized: when every permitted field either raises
    [AttributeError] on its read or is serialized without an exception, a
    dictionary is returned, with no entry for the former and, for each of
    the latter, its serialized value under its attname. *)
Theorem model_to_dict_omits_unreadable (obj : model Val)
    (include exclude : option (list string)) :
  ((forall val, unicode val <> Raise AttributeError) ->
   model_to_dict none attr_id unicode obj include exclude
     <> Raise AttributeError) /\
  model_to_dict none attr_id unicode obj include exclude =
    model_to_dict none attr_id unicode
      (Model (List.filter (fun fld => negb (unreadable obj fld)) (fields obj))
             (attrgetter obj))
      include exclude /\
  (forall res fld,
     NoDup (attname <$> fields obj) ->
     model_to_dict none attr_id unicode obj include exclude = Ok res ->
     fld ∈ fields obj -> unreadable obj fld = true ->
     res !! attname fld = None) /\
  (NoDup (attname <$> fields obj) ->
   (forall fld, fld ∈ fields obj ->
                permitted_by include exclude (attname fld) ->
                plain_read attr_id unicode obj fld) ->
   exists res,
     model_to_dict none attr_id unicode obj include exclude = Ok res /\
     forall fld, fld ∈ fields obj ->
                 permitted_by include exclude (attname fld) ->
       (unreadable obj fld = true /\ res !! attname fld = None) \/
       (unreadable obj fld = false /\
        exists v, serialized none attr_id unicode obj fld v /\
                  res !! attname fld = Some v)).
Proof.
  unfold model_to_dict. split; [|split; [|split]].
  - intros Huni. by apply serialize_not_AttributeError.
  - simpl. rewrite serialize_filter_unreadable. symmetry.
    by apply serialize_attrgetter.
  - intros res fld Hnd Hres Hfld Hun.
    by apply (serialize_field _ _ _ _ _ Hnd Hres Hfld).
  - intros Hnd Hall.
    destruct (serialize_returns (matcher include exclude) obj (fields obj))
      with (res0 := (∅ : gmap string (entry Val))) as [res Hres].
    { intros fld Hfld Hp. apply Hall; [done|]. by apply matcher_permitted. }
    exists res. split; [done|]. intros fld Hfld Hp.
    destruct (serialize_field _ _ _ _ _ Hnd Hres Hfld) as [Habsent Hstored].
    destruct (unreadable obj fld) eqn:Hun; [left; auto|right].
    split; [done|].
    destruct (proj1 (plain_read_spec obj fld) (Hall fld Hfld Hp))
      as [Hun'|[v Hst]]; [congruence|].
    exists v. split; [by apply stores_serialized|].
    apply Hstored; [|done]. by apply matcher_permitted.
Qed.

End Facts.

(** A model with a plain field, two foreign keys, a field that cannot be
    read and an excluded one.  Values are optional integers, [None] being
    Python's [None]: the foreign key [owner_id] is null, so that its related
    object has no [id]. *)
Lemma model_to_dict_entries_witness :
  let obj :=
    Model [Field "name" false; Field "owner_id" true; Field "author_id" true;
           Field "ghost" false; Field "secret" false]
      (fun attr => if String.eqb attr "name" then Ok (Some 1)
                   else if String.eqb attr "owner" then Ok None
                   else if String.eqb attr "author" then Ok (Some 7)
                   else if String.eqb attr "secret" then Ok (Some 9)
                   else Raise AttributeError) in
  let attr_id := fun val : option Z =>
    match val with Some n => Ok (Some (n + 100)) | None => Raise AttributeError end in
  let unicode := fun val : option Z =>
    match val with Some n => Ok (Some (n + 1000)) | None => Ok (Some 0) end in
  let res : gmap string (entry (option Z)) :=
    <["author_id" := Nested (<["id" := Some 107]> (<["name" := Some 1007]> ∅))]>
      (<["owner_id" := Nested (<["id" := None]> (<["name" := Some 0]> ∅))]>
         (<["name" := Raw (Some 1)]> ∅)) in
  NoDup (attname <$> fields obj) /\
  (forall fld, fld ∈ fields obj ->
               permitted_by None (Some ["sec*"]) (attname fld) ->
               plain_read attr_id unicode obj fld) /\
  (exists res', model_to_dict None attr_id unicode obj None (Some ["sec*"]) = Ok res') /\
  model_to_dict None attr_id unicode obj None (Some ["sec*"]) = Ok res /\
  exists fld, fld ∈ fields obj /\ attname fld = "owner_id" /\
    permitted_by None (Some ["sec*"]) "owner_id" /\
    serialized None attr_id unicode obj fld
      (Nested (<["id" := None]> (<["name" := Some 0]> ∅))).
Proof.
  intros obj attr_id unicode res.
  assert (Hnd : NoDup (attname <$> fields obj)).
  { apply (bool_decide_unpack _). vm_compute. reflexivity. }
  assert (Hall : forall fld, fld ∈ fields obj ->
            permitted_by None (Some ["sec*"]) (attname fld) ->
            plain_read attr_id unicode obj fld).
  { intros fld Hfld Hp. apply matcher_permitted in Hp.
    apply plain_read_spec with (none := None).
    repeat (apply elem_of_cons in Hfld as [->|Hfld]);
      [right|right|right|left|discriminate Hp|by apply elem_of_nil in Hfld].
    - by exists (Raw (Some 1)), "name", (Some 1).
    - by exists (Nested (<["id" := None]> (<["name" := Some 0]> ∅))),
                "owner", None.
    - by exists (Nested (<["id" := Some 107]> (<["name" := Some 1007]> ∅))),
                "author", (Some 7).
    - reflexivity. }
  destruct (model_to_dict_entries None attr_id unicode obj None (Some ["sec*"]))
    as [Hreturns Hentries].
  split; [exact Hnd|]. split; [exact Hall|].
  split; [exact (proj2 Hreturns Hall)|]. split; [reflexivity|].
  apply (Hentries Hnd res eq_refl "owner_id"). reflexivity.
Defined.

Lemma model_to_dict_omits_unreadable_witness :
  let obj :=
    Model [Field "name" false; Field "owner_id" true; Field "ghost" false]
      (fun attr => if String.eqb attr "name" then Ok (Some 1)
                   else if String.eqb attr "owner" then Ok (Some 5)
                   else Raise AttributeError) in
  let attr_id := fun val : option Z =>
    match val with Some n => Ok (Some (n + 100)) | None => Raise AttributeError end in
  let unicode := fun val : option Z =>
    match val with Some n => Ok (Some (n + 1000)) | None => Ok (Some 0) end in
  (forall val, unicode val <> Raise AttributeError) /\
  NoDup (attname <$> fields obj) /\
  (forall fld, fld ∈ fields obj -> permitted_by None None (attname fld) ->
               plain_read attr_id unicode obj fld) /\
  unreadable obj (Field "ghost" false) = true /\
  model_to_dict None attr_id unicode obj None None <> Raise AttributeError /\
  model_to_dict None attr_id unicode obj None None =
    model_to_dict None attr_id unicode
      (Model [Field "name" false; Field "owner_id" true] (attrgetter obj))
      None None /\
  exists res,
    model_to_dict None attr_id unicode obj None None = Ok res /\
    res !! "ghost" = None /\
    res !! "name" = Some (Raw (Some 1)) /\
    res !! "owner_id" =
      Some (Nested (<["id" := Some 105]> (<["name" := Some 1005]> ∅))).
Proof.
  intros obj attr_id unicode.
  assert (Huni : forall val, unicode val <> Raise AttributeError).
  { by intros [n|]. }
  assert (Hnd : NoDup (attname <$> fields obj)).
  { apply (bool_decide_unpack _). vm_compute. reflexivity. }
  assert (Hall : forall fld, fld ∈ fields obj ->
            permitted_by None None (attname fld) ->
            plain_read attr_id unicode obj fld).
  { intros fld Hfld _. apply plain_read_spec with (none := None).
    repeat (apply elem_of_cons in Hfld as [->|Hfld]);
      [right|right|left|by apply elem_of_nil in Hfld].
    - by exists (Raw (Some 1)), "name", (Some 1).
    - by exists (Nested (<["id" := Some 105]> (<["name" := Some 1005]> ∅))),
                "owner", (Some 5).
    - reflexivity. }
  destruct (model_to_dict_omits_unreadable None attr_id unicode obj None None)
    as (Hno & Hfilter & Habsent & Hothers).
  split; [exact Huni|]. split; [exact Hnd|]. split; [exact Hall|].
  split; [reflexivity|]. split; [exact (Hno Huni)|]. split; [exact Hfilter|].
  destruct (Hothers Hnd Hall) as (res & Hres & Hflds).
  exists res. split; [exact Hres|].
  assert (Hp : forall k, permitted_by None None k).
  { intros k. apply matcher_permitted. reflexivity. }
  assert (Hin : forall fld, In fld (fields obj) -> fld ∈ fields obj).
  { intros fld. apply list_elem_of_In. }
  assert (Hghost : Field "ghost" false ∈ fields obj) by (apply Hin; simpl; tauto).
  assert (Hname : Field "name" false ∈ fields obj) by (apply Hin; simpl; tauto).
  assert (Howner : Field "owner_id" true ∈ fields obj) by (apply Hin; simpl; tauto).
  split; [|split].
  - destruct (Hflds _ Hghost (Hp _))
      as [[_ Hk]|[Hk _]]; [exact Hk|discriminate Hk].
  - destruct (Hflds _ Hname (Hp _))
      as [[Hk _]|(_ & v & (val & Hval & ->) & Hk)]; [discriminate Hk|].
    injection Hval as <-. exact Hk.
  - destruct (Hflds _ Howner (Hp _))
      as [[Hk _]|(_ & v & (base & val & i & name & Hbase & Hval & Hi & Hn & ->)
                   & Hk)]; [discriminate Hk|].
    assert (base = "owner") as ->.
    { apply (append_inj_l base "owner" "_id"). symmetry. exact Hbase. }
    injection Hval as <-. destruct Hi as [[= <-]|[[=] _]].
    injection Hn as <-. exact Hk.
Defined.

End ModelToDictFacts.

(** ** State kept between calls *)
Module StatelessFacts.
Import Stateless Cached.








End StatelessFacts.

(** ** The doctests of the module, run on the embedding *)
Module Doctests.
Import Request Matcher Cached.

Example doctest_extract_int :
  extract_int {| REQUEST := ∅ |} "NaN" = Ok None /\
  extract_int {| REQUEST := {[ "int" := "1" ]} |} "int" = Ok (Some 1).
Proof. split; reflexivity. Qed.

Example doctest_extract_int_list :
  extract_int_list {| REQUEST := ∅ |} "list" = Ok [] /\
  extract_int_list {| REQUEST := {[ "list" := "1,2,3,4" ]} |} "list" =
    Ok [1; 2; 3; 4].
Proof. split; reflexivity. Qed.

Example doctest_matcher :
  List.filter (matcher (Some ["a*"; "b*"; "*s"; "cat"; "dog"])
                       (Some ["*ee"; "dog"]))
    ["cat"; "ape"; "apple"; "duck"; "see"; "bee"; "bean"; "knee"; "dog"] =
    ["cat"; "ape"; "apple"; "bean"] /\
  List.filter (matcher (Some ["*s"]) None) ["hour"; "hours"; "day"; "days"] =
    ["hours"; "days"] /\
  List.filter (matcher None (Some ["*s"])) ["hour"; "hours"; "day"; "days"] =
    ["hour"; "day"].
Proof. repeat split; reflexivity. Qed.

Example doctest_int_parsers :
  int_or_zero "" = Ok 0 /\ int_or_zero "10" = Ok 10 /\
  int_or_none "" = Ok None /\ int_or_none "10" = Ok (Some 10) /\
  int_list "10,20, 30" = Ok [10; 20; 30].
Proof. repeat split; reflexivity. Qed.

Example doctest_modify :
  modify ({[ "param1" := 0 ]} : gmap string Z) [("param1", 1)] !! "param1" =
    Some 1 /\
  modifier [("width", 10)] (∅ : gmap string Z) !! "width" = Some 10.
Proof. split; reflexivity. Qed.

End Doctests.

(** * Further properties *)

(** ** QuerySplitter: runs of calls, paging parameters, limits *)
Module SplitterRunsFacts.
Import Request QuerySplitter SplitterRuns PyFacts QuerySplitterFacts.

Section Facts.
Context {A B : Type}.
Variable row_fabric : A -> B.
Variable validator : A -> bool.

Lemma next_sound (limit : Z) (data : list A) (q : t A) :
  0 < limit -> sound limit data q ->
  sound limit data (snd (next q)) /\
  match fst (next q) with
  | Ok item =>
      remaining q = item :: remaining (snd (next q)) /\
      _cnt (snd (next q)) = _cnt q + 1
  | Raise _ =>
      remaining (snd (next q)) = remaining q /\ _cnt (snd (next q)) = _cnt q
  end.
Proof.
  intros Hl (Hlim & Hdata & Hattr & Hs & Hc). unfold next.
  destruct (Z.leb_spec (_limit q) (_cnt q)) as [Hdone|Hmore]; simpl.
  { unfold sound. repeat split; try done; lia. }
  destruct (refill_fields q) as (Hd' & Hl' & Hc' & Ha').
  destruct (refill_remaining q Hs ltac:(lia)) as [Hrem Hempty].
  pose proof (refill_start q Hs ltac:(lia)) as Hs'.
  destruct (chunk_items (_chunk (refill q))) as [|item rest] eqn:Hchunk; simpl.
  - split; [|done]. unfold sound. rewrite Hd', Hl', Hc', Ha'.
    repeat split; try done; lia.
  - split; [unfold sound; simpl; rewrite Hd', Hl', Hc', Ha'; repeat split;
            try done; lia|].
    split; [|by rewrite Hc'].
    rewrite <- Hrem. unfold remaining. simpl. by rewrite Hchunk.
Qed.

Lemma step_sound (limit : Z) (data : list A) (q : t A) (m : method) :
  0 < limit -> sound limit data q -> sound limit data (step q m).
Proof.
  intros Hl Hq. destruct m; simpl.
  - destruct Hq as (Hlim & Hrest). unfold __iter__. rewrite Hlim.
    destruct (Z.eqb_spec limit 0); [lia|]. by split.
  - by apply next_sound.
  - destruct Hq as (Hlim & Hdata & Hattr & Hs & Hc).
    unfold call_skip_last, skip_last. rewrite Hattr.
    destruct (Z.eqb_spec (_cnt q) 0); unfold sound; simpl;
      repeat split; try done; lia.
Qed.

Lemma step_remaining (limit : Z) (data : list A) (q : t A) (m : method) :
  0 < limit -> sound limit data q ->
  match m, fst (next q) with
  | m_next, Ok item => remaining q = item :: remaining (step q m)
  | _, _ => remaining (step q m) = remaining q
  end.
Proof.
  intros Hl Hq. destruct m; simpl.
  - destruct Hq as (Hlim & Hrest). unfold __iter__. rewrite Hlim.
    by destruct (Z.eqb_spec limit 0); [lia|].
  - destruct (next_sound limit data q Hl Hq) as [_ Hnext].
    destruct (fst (next q)); by destruct Hnext.
  - destruct Hq as (Hlim & Hdata & Hattr & Hs & Hc).
    unfold call_skip_last, skip_last. rewrite Hattr.
    by destruct (Z.eqb_spec (_cnt q) 0).
Qed.

Lemma delivered_remaining (limit : Z) (data : list A) (ms : list method) :
  forall q : t A, 0 < limit -> sound limit data q ->
  delivered q ms ++ remaining (run q ms) = remaining q.
Proof.
  induction ms as [|m ms IH]; intros q Hl Hq; [done|].
  pose proof (step_sound limit data q m Hl Hq) as Hq'.
  pose proof (step_remaining limit data q m Hl Hq) as Hrem.
  simpl. destruct m; simpl in *.
  - rewrite IH by done. exact Hrem.
  - destruct (fst (next q)) as [item|e].
    + simpl. rewrite IH by done. by rewrite Hrem.
    + rewrite IH by done. exact Hrem.
  - rewrite IH by done. exact Hrem.
Qed.

Lemma init_sound (data : list A) (start limit : Z) :
  0 <= start -> 0 < limit -> sound limit data (__init__ data start limit).
Proof. intros Hs Hl. unfold sound. simpl. repeat split; try done; lia. Qed.

(** X1.  Whatever calls of [__iter__], [next] and [skip_last] are made on
    a splitter with [start >= 0] and [limit > 0], and in whatever order,
    the items handed out by [next] followed by what the splitter still
    holds are the data from [start] on: no element is skipped, repeated or
    reordered, and [skip_last] takes nothing back. *)
Theorem next_hands_out_data_in_order (data : list A) (start limit : Z)
    (ms : list method) :
  0 <= start -> 0 < limit ->
  let q := __init__ data start limit in
  delivered q ms ++ remaining (run q ms) = drop (Z.to_nat start) data.
Proof.
  intros Hs Hl q.
  rewrite (delivered_remaining limit data ms q Hl (init_sound data start limit Hs Hl)).
  unfold remaining, q. simpl. done.
Qed.

Lemma run_sound (limit : Z) (data : list A) (ms : list method) :
  forall q : t A, 0 < limit -> sound limit data q ->
  sound limit data (run q ms) /\
  Z.of_nat (length (delivered q ms)) - rolled_back q ms =
    _cnt (run q ms) - _cnt q.
Proof.
  induction ms as [|m ms IH]; intros q Hl Hq.
  { simpl. split; [done|lia]. }
  pose proof (step_sound limit data q m Hl Hq) as Hq'.
  destruct (IH (step q m) Hl Hq') as [Hrun Hcount].
  split; [exact Hrun|].
  change (run q (m :: ms)) with (run (step q m) ms).
  destruct m; simpl in Hcount |- *.
  - assert (_cnt (__iter__ q).2 = _cnt q) as Hsame; [|lia].
    destruct Hq as (Hlim & _). unfold __iter__. rewrite Hlim.
    by destruct (Z.eqb_spec limit 0); [lia|].
  - destruct (next_sound limit data q Hl Hq) as [_ Hnext].
    destruct (fst (next q)) as [item|e]; destruct Hnext as [_ Hc]; simpl;
      lia.
  - destruct Hq as (Hlim & Hdata & Hattr & Hs & Hc).
    revert Hcount. unfold call_skip_last, skip_last. rewrite Hattr.
    destruct (Z.eqb_spec (_cnt q) 0); simpl; intros Hcount; lia.
Qed.

(** X2.  On a splitter with [start >= 0] and [limit > 0], after any calls
    the delivered count is the number of items [next] handed out less the
    number of [skip_last] calls that went through, it stays between [0]
    and [limit], and the data, the limit and the method [skip_last] are
    still the ones of the constructor. *)
Theorem count_is_delivered_less_rolled_back (data : list A) (start limit : Z)
    (ms : list method) :
  0 <= start -> 0 < limit ->
  let q := run (__init__ data start limit) ms in
  _cnt q =
    Z.of_nat (length (delivered (__init__ data start limit) ms)) -
    rolled_back (__init__ data start limit) ms /\
  0 <= _cnt q <= limit /\
  _data q = data /\ _limit q = limit /\ skip_last_attr q = None.
Proof.
  intros Hs Hl q.
  destruct (run_sound limit data ms _ Hl (init_sound data start limit Hs Hl))
    as [(Hlim & Hdata & Hattr & _ & Hc) Hcount].
  fold q in Hlim, Hdata, Hattr, Hc, Hcount. simpl in Hcount.
  repeat split; try done; lia.
Qed.

(** With the stub in place the loop over a list iterator gets through the
    valid items only: the first rejected one calls the stub. *)
Lemma for_loop_list_stub (fuel : nat) :
  forall (l : list A) (q : t A) (rows : list B),
  skip_last_attr q = Some (Lambda 1%nat tt) ->
  (length l < fuel)%nat ->
  for_loop row_fabric validator fuel (ListIter l) q rows =
  Some (if forallb validator l then Ok (rows ++ List.map row_fabric l)
        else Raise TypeError).
Proof.
  induction fuel as [|fuel IH]; intros l q rows Hattr Hfuel; [lia|].
  destruct l as [|x l]; simpl.
  - by rewrite app_nil_r.
  - destruct (validator x) eqn:Hx; simpl.
    + rewrite IH; [|done|simpl in Hfuel; lia]. by rewrite <- app_assoc.
    + unfold call_skip_last. by rewrite Hattr.
Qed.

(** X3.  When the limit [make_rows] ends up with is [0], [start] is not
    looked at: the rows of the whole query are returned if the validator
    accepts every element, and a rejected element ends the call with
    [TypeError] (the stub planted by [__iter__] is called without its
    argument). *)
Theorem make_rows_without_limit (query : list A) (request : option HttpRequest)
    (start limit start' : Z) :
  paging request start limit = Ok (start', 0) ->
  ((forall x, x ∈ query -> validator x = true) ->
     make_rows row_fabric validator query request start limit =
     Some (Ok (List.map row_fabric query))) /\
  ((exists x, x ∈ query /\ validator x = false) ->
     make_rows row_fabric validator query request start limit =
     Some (Raise TypeError)).
Proof.
  intros Hp. unfold make_rows. rewrite Hp. unfold __iter__.
  change (_limit (__init__ query start' 0)) with 0. cbn [Z.eqb].
  rewrite for_loop_list_stub; [|done|simpl; lia].
  change (_data (__init__ query start' 0)) with query. simpl app.
  split.
  - intros Hall. rewrite (proj2 (forallb_forall validator query)); [done|].
    intros x Hx. apply Hall. by apply list_elem_of_In.
  - intros (x & Hx & Hbad).
    destruct (forallb validator query) eqn:Hall; [|done].
    rewrite forallb_forall in Hall.
    rewrite Hall in Hbad; [done|]. by apply list_elem_of_In.
Qed.

(** X4.  When the limit [make_rows] ends up with is negative, the result
    is the empty list: nothing is loaded and the validator is not asked. *)
Theorem make_rows_negative_limit (query : list A) (request : option HttpRequest)
    (start limit start' limit' : Z) :
  paging request start limit = Ok (start', limit') -> limit' < 0 ->
  make_rows row_fabric validator query request start limit = Some (Ok []).
Proof.
  intros Hp Hneg. unfold make_rows. rewrite Hp. unfold __iter__.
  change (_limit (__init__ query start' limit')) with limit'.
  destruct (Z.eqb_spec limit' 0); [lia|].
  simpl. unfold next. simpl.
  by destruct (Z.leb_spec limit' 0); [|lia].
Qed.

Lemma paging_value (request : HttpRequest) (key : string) (default : Z) :
  exists v, extract_int request key = Ok v /\
    (forall n, int (REQUEST_get request key "") = Ok n -> n <> 0 ->
               or_int v default = n) /\
    (REQUEST request !! key = None \/
     int (REQUEST_get request key "") = Raise ValueError \/
     int (REQUEST_get request key "") = Ok 0 ->
     or_int v default = default).
Proof.
  unfold extract_int.
  assert (Hmissing : REQUEST request !! key = None ->
            int (REQUEST_get request key "") = Raise ValueError).
  { unfold REQUEST_get. by intros ->. }
  destruct (int (REQUEST_get request key "")) as [n|e] eqn:Hint; simpl.
  - exists (Some n). split; [done|]. split.
    + intros m [= <-] Hm. simpl. by destruct (Z.eqb_spec n 0).
    + intros [Hnone|[[=]|[= ->]]]; [|done]. by apply Hmissing in Hnone.
  - rewrite (RequestFacts.int_raises _ _ Hint). simpl.
    exists None. by repeat split.
Qed.

(** X5.  With a request, [make_rows] takes [start] and [limit] from it
    when the parameter is there and is a number other than [0]; a missing,
    malformed or zero parameter leaves the argument of the call in force.
    No parameter makes the computation of the paging raise. *)
Theorem paging_prefers_request (request : HttpRequest) (start limit : Z) :
  exists start' limit',
    paging (Some request) start limit = Ok (start', limit') /\
    (forall n, int (REQUEST_get request "start" "") = Ok n -> n <> 0 ->
               start' = n) /\
    (REQUEST request !! "start" = None \/
     int (REQUEST_get request "start" "") = Raise ValueError \/
     int (REQUEST_get request "start" "") = Ok 0 -> start' = start) /\
    (forall n, int (REQUEST_get request "limit" "") = Ok n -> n <> 0 ->
               limit' = n) /\
    (REQUEST request !! "limit" = None \/
     int (REQUEST_get request "limit" "") = Raise ValueError \/
     int (REQUEST_get request "limit" "") = Ok 0 -> limit' = limit).
Proof.
  destruct (paging_value request "start" start) as (v & Hv & Hset & Hkeep).
  destruct (paging_value request "limit" limit) as (w & Hw & Hset' & Hkeep').
  exists (or_int v start), (or_int w limit). unfold paging.
  rewrite Hv. simpl. rewrite Hw. simpl. by repeat split.
Qed.

(** Without a request, [make_rows] is what the loop invariant gives. *)
Lemma make_rows_plain (query : list A) (start limit : Z) :
  0 <= start -> 0 < limit ->
  make_rows row_fabric validator query None start limit =
  Some (Ok (List.map row_fabric
              (take (Z.to_nat limit)
                    (List.filter validator (drop (Z.to_nat start) query))))).
Proof.
  intros Hs Hl. unfold make_rows, paging, __iter__.
  change (_limit (__init__ query start limit)) with limit.
  destruct (Z.eqb_spec limit 0) as [?|_]; [lia|].
  rewrite (for_loop_self row_fabric validator); simpl; try done; try lia.
  - unfold remaining. simpl. by rewrite Z.sub_0_r.
  - unfold remaining. simpl. rewrite length_drop. lia.
Qed.

(** X6.  When the validator accepts every element, pages follow one
    another: the page of [n] rows from [start] followed by the page of [m]
    rows from [start + n] is the page of [n + m] rows from [start]. *)
Theorem pages_concatenate (query : list A) (start n m : Z) :
  0 <= start -> 0 < n -> 0 < m ->
  (forall x, x ∈ query -> validator x = true) ->
  exists page1 page2,
    make_rows row_fabric validator query None start n = Some (Ok page1) /\
    make_rows row_fabric validator query None (start + n) m = Some (Ok page2) /\
    make_rows row_fabric validator query None start (n + m) =
      Some (Ok (page1 ++ page2)).
Proof.
  intros Hs Hn Hm Hall.
  assert (Hid : forall k, List.filter validator (drop k query) = drop k query).
  { intros k. apply forallb_filter_id, forallb_forall. intros x Hx.
    apply Hall. apply list_elem_of_In in Hx.
    by apply (subseteq_drop k query). }
  rewrite (make_rows_plain query start n) by lia.
  rewrite (make_rows_plain query (start + n) m) by lia.
  rewrite (make_rows_plain query start (n + m)) by lia.
  rewrite !Hid.
  eexists _, _. split; [done|]. split; [done|].
  rewrite <- map_app. do 3 f_equal.
  replace (Z.to_nat (n + m)) with (Z.to_nat n + Z.to_nat m)%nat by lia.
  rewrite <- take_take_drop, drop_drop.
  by replace (Z.to_nat (start + n)) with (Z.to_nat start + Z.to_nat n)%nat
    by lia.
Qed.

End Facts.

Lemma next_hands_out_data_in_order_witness :
  let ms := [m_next; m_skip_last; m_next; m_iter; m_next] in
  let q := __init__ [1; 2; 3; 4; 5] 1 2 in
  0 <= 1 /\ 0 < 2 /\
  delivered q ms ++ remaining (run q ms) = [2; 3; 4; 5].
Proof.
  cbv zeta. split; [lia|]. split; [lia|].
  exact (next_hands_out_data_in_order [1; 2; 3; 4; 5] 1 2
           [m_next; m_skip_last; m_next; m_iter; m_next]
           ltac:(lia) ltac:(lia)).
Defined.

Lemma count_is_delivered_less_rolled_back_witness :
  let ms := [m_next; m_skip_last; m_skip_last; m_next; m_next] in
  let q := run (__init__ [1; 2; 3; 4; 5] 1 2) ms in
  0 <= 1 /\ 0 < 2 /\ _cnt q = 3 - 1 /\ 0 <= _cnt q <= 2.
Proof.
  cbv zeta. split; [lia|]. split; [lia|].
  destruct (count_is_delivered_less_rolled_back [1; 2; 3; 4; 5] 1 2
              [m_next; m_skip_last; m_skip_last; m_next; m_next]
              ltac:(lia) ltac:(lia)) as (Hcnt & Hrange & _).
  split; [exact Hcnt|exact Hrange].
Defined.

Lemma make_rows_without_limit_witness :
  paging None 5 0 = Ok (5, 0) /\
  make_rows (fun item : Z => item) (fun _ => true) [1; 2; 3] None 5 0 =
    Some (Ok [1; 2; 3]) /\
  make_rows (fun item : Z => item) Z.odd [1; 2; 3] None 5 0 =
    Some (Raise TypeError).
Proof.
  split; [reflexivity|]. split.
  - apply (make_rows_without_limit (fun item : Z => item) (fun _ => true)
             [1; 2; 3] None 5 0 5 ltac:(reflexivity)). done.
  - apply (make_rows_without_limit (fun item : Z => item) Z.odd
             [1; 2; 3] None 5 0 5 ltac:(reflexivity)).
    exists 2. split; [|reflexivity].
    apply (bool_decide_unpack _). vm_compute. reflexivity.
Defined.

Lemma make_rows_negative_limit_witness :
  let request := Some {| REQUEST := {[ "limit" := "-3" ]} |} in
  paging request 0 25 = Ok (0, -3) /\ -3 < 0 /\
  make_rows (fun item : Z => item) (fun _ => true) [1; 2; 3] request 0 25 =
    Some (Ok []).
Proof.
  cbv zeta.
  assert (Hp : paging (Some {| REQUEST := {[ "limit" := "-3" ]} |}) 0 25 =
               Ok (0, -3)) by reflexivity.
  split; [exact Hp|]. split; [lia|].
  apply (make_rows_negative_limit (fun item : Z => item) (fun _ => true)
           [1; 2; 3] (Some {| REQUEST := {[ "limit" := "-3" ]} |})
           0 25 0 (-3) Hp). lia.
Defined.

(** A request whose [start] is [0] and whose [limit] is [10], against the
    arguments [3] and [25]. *)
Lemma paging_prefers_request_witness :
  let request := {| REQUEST := {[ "start" := "0"; "limit" := "10" ]} |} in
  int (REQUEST_get request "start" "") = Ok 0 /\
  int (REQUEST_get request "limit" "") = Ok 10 /\
  paging (Some request) 3 25 = Ok (3, 10).
Proof.
  cbv zeta. split; [reflexivity|]. split; [reflexivity|].
  destruct (paging_prefers_request
              {| REQUEST := {[ "start" := "0"; "limit" := "10" ]} |} 3 25)
    as (start' & limit' & Hp & _ & Hkeep & Hset & _).
  rewrite Hp.
  assert (Hstart : int (REQUEST_get
            {| REQUEST := {[ "start" := "0"; "limit" := "10" ]} |} "start" "") =
            Ok 0) by reflexivity.
  assert (Hlimit : int (REQUEST_get
            {| REQUEST := {[ "start" := "0"; "limit" := "10" ]} |} "limit" "") =
            Ok 10) by reflexivity.
  rewrite (Hkeep (or_intror (or_intror Hstart))).
  rewrite (Hset 10 Hlimit ltac:(discriminate)). reflexivity.
Defined.

Lemma pages_concatenate_witness :
  0 <= 1 /\ 0 < 2 /\ 0 < 3 /\
  exists page1 page2,
    make_rows (fun item : Z => item) (fun _ => true)
      [1; 2; 3; 4; 5; 6; 7] None 1 2 = Some (Ok page1) /\
    make_rows (fun item : Z => item) (fun _ => true)
      [1; 2; 3; 4; 5; 6; 7] None (1 + 2) 3 = Some (Ok page2) /\
    make_rows (fun item : Z => item) (fun _ => true)
      [1; 2; 3; 4; 5; 6; 7] None 1 (2 + 3) = Some (Ok (page1 ++ page2)).
Proof.
  split; [lia|]. split; [lia|]. split; [lia|].
  apply (pages_concatenate (fun item : Z => item) (fun _ => true)
           [1; 2; 3; 4; 5; 6; 7] 1 2 3); [lia|lia|lia|done].
Defined.

End SplitterRunsFacts.

(** ** ModelCache: forget_last, failed lookups, caches with a factory *)
Module CacheRunsFacts.
Import ModelCache CacheRuns.

Section Facts.
Context {V Obj World : Type} `{Countable V}.
Variable objects_get : @kwargs V -> World -> result Obj * World.
Variable isinstance_model : Obj -> bool.
Variable id_of : Obj -> option Z.

(** What [get] does to the instance, whatever it returns: the last
    arguments are recorded, the factory stays, and the cache is the old
    one or the old one with an entry for the key of the arguments. *)
Lemma get_instance (self : t V Obj World) (kw : kwargs) (e : env V World) :
  let self1 := (get objects_get isinstance_model id_of self kw e).1.2 in
  _last_kwargs self1 = kw /\ _fabric self1 = _fabric self /\
  (_cache self1 = _cache self \/
   exists v, _cache self !! _key_for_dict kw = None /\
             (get objects_get isinstance_model id_of self kw e).1.1 = Ok v /\
             _cache self1 = <[_key_for_dict kw := v]> (_cache self)).
Proof.
  cbv zeta. unfold get. simpl.
  destruct (_cache self !! _key_for_dict kw) eqn:Hkw; simpl; [by auto|].
  destruct (_get_object objects_get kw e) as [[new|ex] e']; [|by auto].
  destruct new as [o|]; simpl.
  - repeat split; try done. right. by exists (Some o).
  - destruct (_fabric self) as [f|]; simpl.
    + destruct (f kw (world e')) as [[o|ex] w]; simpl; [|by auto].
      destruct (isinstance_model o); simpl; [|by auto].
      destruct (id_of o); simpl; [|by auto].
      repeat split; try done. right. by exists (Some o).
    + repeat split; try done. right. by exists None.
Qed.

(** A [get] for a key that is not cached asks the ORM first. *)
Lemma get_miss_looks_up (self : t V Obj World) (kw : kwargs) (e : env V World) :
  _cache self !! _key_for_dict kw = None ->
  exists rest,
    trace (get objects_get isinstance_model id_of self kw e).2 =
    trace e ++ Lookup kw :: rest.
Proof.
  intros Hmiss. unfold get. simpl. rewrite Hmiss. unfold _get_object.
  destruct (objects_get kw (world e)) as [[o|ex] w]; simpl.
  - by exists [].
  - destruct (exn_eqb ex DoesNotExist); simpl; [|by exists []].
    destruct (_fabric self) as [f|]; simpl; [|by exists []].
    destruct (f kw w) as [[o|ex'] w']; simpl.
    + destruct (isinstance_model o); simpl;
        [destruct (id_of o); simpl|];
        exists [Fabric kw]; by rewrite <- app_assoc.
    + exists [Fabric kw]. by rewrite <- app_assoc.
Qed.

(** X7.  After a [get] with at least one keyword argument, whether it
    returned or raised, [forget_last] leaves no entry for the key of those
    arguments and every other entry as it was before the [get]; the next
    [get] with the same arguments asks the ORM again. *)
Theorem forget_last_drops_last_key (self : t V Obj World) (kw : kwargs)
    (e e' : env V World) :
  kw <> [] ->
  let self1 := (get objects_get isinstance_model id_of self kw e).1.2 in
  _cache (forget_last self1) !! _key_for_dict kw = None /\
  (forall k, k <> _key_for_dict kw ->
     _cache (forget_last self1) !! k = _cache self !! k) /\
  exists rest,
    trace (get objects_get isinstance_model id_of (forget_last self1) kw e').2 =
    trace e' ++ Lookup kw :: rest.
Proof.
  intros Hkw self1.
  destruct (get_instance self kw e) as (Hlast & _ & Hcache). fold self1 in Hlast, Hcache.
  assert (Hforget : _cache (forget_last self1) =
                    delete (_key_for_dict kw) (_cache self1)).
  { unfold forget_last. rewrite Hlast. by destruct kw. }
  assert (Hgone : _cache (forget_last self1) !! _key_for_dict kw = None).
  { rewrite Hforget. apply lookup_delete_eq. }
  split; [exact Hgone|]. split.
  - intros k Hk. rewrite Hforget, lookup_delete_ne by done.
    destruct Hcache as [->|(v & _ & _ & ->)]; [done|].
    by apply lookup_insert_ne.
  - by apply get_miss_looks_up.
Qed.

(** X8.  After a [get] without keyword arguments, [forget_last] does
    nothing: what that [get] returned stays cached under the empty key. *)
Theorem forget_last_keeps_empty_key (self self1 : t V Obj World)
    (e e1 : env V World) (v : option Obj) :
  get objects_get isinstance_model id_of self [] e = (Ok v, self1, e1) ->
  forget_last self1 = self1 /\ _cache self1 !! [] = Some v.
Proof.
  intros Hget.
  destruct (get_instance self [] e) as (Hlast & _ & Hcache).
  rewrite Hget in Hlast, Hcache. simpl in Hlast, Hcache.
  split; [unfold forget_last; by rewrite Hlast|].
  destruct Hcache as [Hsame|(v' & _ & [= <-] & ->)].
  - unfold get in Hget. simpl in Hget.
    change (_key_for_dict []) with (@nil (string * V)) in Hget.
    destruct (_cache self !! []) as [v'|] eqn:Hhit.
    + injection Hget as -> <- _. done.
    + destruct (_get_object objects_get [] e) as [[new|ex] e2]; [|done].
      destruct new as [o|]; simpl in Hget.
      * injection Hget as <- <- _. simpl. apply lookup_insert_eq.
      * destruct (_fabric self) as [f|]; simpl in Hget.
        -- destruct (f [] (world e2)) as [[o|ex] w]; simpl in Hget; [|done].
           destruct (isinstance_model o); simpl in Hget; [|done].
           destruct (id_of o); simpl in Hget; [|done].
           injection Hget as <- <- _. simpl. apply lookup_insert_eq.
        -- injection Hget as <- <- _. simpl. apply lookup_insert_eq.
  - apply lookup_insert_eq.
Qed.

(** X9.  A [get] that raises stores nothing: the cache is the one before
    the call, the key is still missing from it, and the ORM was asked. *)
Theorem failed_get_stores_nothing (self self1 : t V Obj World) (kw : kwargs)
    (e e1 : env V World) (ex : exn) :
  get objects_get isinstance_model id_of self kw e = (Raise ex, self1, e1) ->
  _cache self1 = _cache self /\
  _cache self1 !! _key_for_dict kw = None /\
  _last_kwargs self1 = kw /\
  exists rest, trace e1 = trace e ++ Lookup kw :: rest.
Proof.
  intros Hget.
  destruct (get_instance self kw e) as (Hlast & _ & Hcache).
  rewrite Hget in Hlast, Hcache. simpl in Hlast, Hcache.
  assert (Hsame : _cache self1 = _cache self).
  { by destruct Hcache as [?|(v & _ & [=] & _)]. }
  assert (Hmiss : _cache self !! _key_for_dict kw = None).
  { unfold get in Hget. simpl in Hget.
    by destruct (_cache self !! _key_for_dict kw). }
  split; [done|]. split; [by rewrite Hsame|]. split; [done|].
  destruct (get_miss_looks_up self kw e Hmiss) as [rest Hrest].
  rewrite Hget in Hrest. by exists rest.
Qed.

(** With a factory, a [get] that returns has an object to return. *)
Lemma get_with_fabric (self : t V Obj World) (kw : kwargs) (e : env V World) :
  is_Some (_fabric self) ->
  (forall k v, _cache self !! k = Some v -> is_Some v) ->
  let '(r, self1, _) := get objects_get isinstance_model id_of self kw e in
  (forall v, r = Ok v -> is_Some v) /\
  (forall k v, _cache self1 !! k = Some v -> is_Some v).
Proof.
  intros [f Hf] Hall. unfold get. simpl. rewrite Hf.
  destruct (_cache self !! _key_for_dict kw) as [v|] eqn:Hkw.
  { split; [|done]. intros v' [= <-]. by apply (Hall _ _ Hkw). }
  assert (Hins : forall o k v,
    <[_key_for_dict kw := Some o]> (_cache self) !! k = Some v -> is_Some v).
  { intros o k v. destruct (decide (_key_for_dict kw = k)) as [<-|Hne].
    - rewrite lookup_insert_eq. by intros [= <-].
    - rewrite lookup_insert_ne by done. apply Hall. }
  destruct (_get_object objects_get kw e) as [[new|ex] e']; [|by split].
  destruct new as [o|]; simpl.
  - split; [by intros v [= <-]|]. apply Hins.
  - destruct (f kw (world e')) as [[o|ex] w]; simpl; [|by split].
    destruct (isinstance_model o); simpl; [|by split].
    destruct (id_of o); simpl; [|by split].
    split; [by intros v [= <-]|]. apply Hins.
Qed.

Lemma forget_last_entries (self : t V Obj World) :
  (forall k v, _cache self !! k = Some v -> is_Some v) ->
  forall k v, _cache (forget_last self) !! k = Some v -> is_Some v.
Proof.
  intros Hall k v. unfold forget_last.
  destruct (_last_kwargs self); simpl; [apply Hall|].
  intros Hk. apply lookup_delete_Some in Hk as [_ Hk]. by apply (Hall k).
Qed.

Lemma calls_with_fabric (cs : list (call V)) :
  forall (self : t V Obj World) (e : env V World),
  is_Some (_fabric self) ->
  (forall k v, _cache self !! k = Some v -> is_Some v) ->
  let self' := (calls objects_get isinstance_model id_of self cs e).1 in
  is_Some (_fabric self') /\
  (forall k v, _cache self' !! k = Some v -> is_Some v).
Proof.
  induction cs as [|[kw|] cs IH]; intros self e Hf Hall; simpl.
  - done.
  - pose proof (get_with_fabric self kw e Hf Hall) as Hget.
    destruct (get_instance self kw e) as (_ & Hfab & _).
    destruct (get objects_get isinstance_model id_of self kw e)
      as [[r self1] e1]. simpl in Hfab.
    apply IH; [by rewrite Hfab|apply Hget].
  - apply IH; [|by apply forget_last_entries].
    unfold forget_last. by destruct (_last_kwargs self).
Qed.

(** X10.  A cache made with a factory never holds [None]: after any
    [get] and [forget_last] calls every cached value is an object, and a
    [get] either raises or returns an object. *)
Theorem cache_with_fabric_holds_objects (fabric : fabric_t)
    (cs : list (call V)) (e e' : env V World) (kw : kwargs) :
  let self := (calls objects_get isinstance_model id_of
                 (__init__ (Some fabric)) cs e).1 in
  (forall k v, _cache self !! k = Some v -> is_Some v) /\
  (forall v, (get objects_get isinstance_model id_of self kw e').1.1 = Ok v ->
             is_Some v).
Proof.
  intros self.
  destruct (calls_with_fabric cs (__init__ (Some fabric)) e) as [Hf Hall].
  { by eexists. }
  { intros k v. simpl. by rewrite lookup_empty. }
  fold self in Hf, Hall. split; [exact Hall|].
  pose proof (get_with_fabric self kw e' Hf Hall) as Hget.
  destruct (get objects_get isinstance_model id_of self kw e')
    as [[r self1] e1]. apply Hget.
Qed.

End Facts.

(** A model without rows and no factory: [get(a=1)] caches [None], and
    [forget_last] takes the entry away again. *)
Lemma forget_last_drops_last_key_witness :
  let objects_get := fun (_ : @kwargs Z) (w : unit) => (@Raise Z DoesNotExist, w) in
  let self := @__init__ Z Z unit _ _ None in
  let kw := [("a", 1)] in
  let self1 := (get objects_get (fun _ => true) Some self kw (Env tt [])).1.2 in
  kw <> [] /\ _cache self1 !! _key_for_dict kw = Some None /\
  _cache (forget_last self1) !! _key_for_dict kw = None.
Proof.
  cbv zeta. split; [discriminate|]. split; [reflexivity|].
  exact (proj1 (forget_last_drops_last_key
                  (fun (_ : @kwargs Z) (w : unit) => (@Raise Z DoesNotExist, w))
                  (fun _ => true) Some (@__init__ Z Z unit _ _ None)
                  [("a", 1)] (Env tt []) (Env tt []) ltac:(discriminate))).
Defined.

Lemma forget_last_keeps_empty_key_witness :
  let objects_get := fun (_ : @kwargs Z) (w : unit) => (Ok 7, w) in
  let self := @__init__ Z Z unit _ _ None in
  let self1 := Build (<[ [] := Some 7 ]> ∅) [] None in
  get objects_get (fun _ => true) Some self [] (Env tt []) =
    (Ok (Some 7), self1, Env tt [Lookup []]) /\
  forget_last self1 = self1 /\ _cache self1 !! [] = Some (Some 7).
Proof.
  cbv zeta.
  assert (Hget : get (fun (_ : @kwargs Z) (w : unit) => (Ok 7, w))
                   (fun _ => true) Some (@__init__ Z Z unit _ _ None) []
                   (Env tt []) =
                 (Ok (Some 7), Build (<[ [] := Some 7 ]> ∅) [] None,
                  Env tt [Lookup []])) by reflexivity.
  split; [exact Hget|].
  exact (forget_last_keeps_empty_key _ _ _ _ _ _ _ _ Hget).
Defined.

(** A model where the lookup finds several rows. *)
Lemma failed_get_stores_nothing_witness :
  let objects_get :=
    fun (_ : @kwargs Z) (w : unit) => (@Raise Z MultipleObjectsReturned, w) in
  let self := @__init__ Z Z unit _ _ None in
  let kw := [("a", 1)] in
  get objects_get (fun _ => true) Some self kw (Env tt []) =
    (Raise MultipleObjectsReturned, Build ∅ kw None, Env tt [Lookup kw]) /\
  _cache (Build (V:=Z) (Obj:=Z) (World:=unit) ∅ kw None) = ∅.
Proof.
  cbv zeta.
  assert (Hget : get (fun (_ : @kwargs Z) (w : unit) =>
                        (@Raise Z MultipleObjectsReturned, w))
                   (fun _ => true) Some (@__init__ Z Z unit _ _ None)
                   [("a", 1)] (Env tt []) =
                 (Raise MultipleObjectsReturned, Build ∅ [("a", 1)] None,
                  Env tt [Lookup [("a", 1)]])) by reflexivity.
  split; [exact Hget|].
  exact (proj1 (failed_get_stores_nothing _ _ _ _ _ _ _ _ _ Hget)).
Defined.

(** A model without rows and a factory that creates object [7]. *)
Lemma cache_with_fabric_holds_objects_witness :
  let objects_get := fun (_ : @kwargs Z) (w : unit) => (@Raise Z DoesNotExist, w) in
  let fabric := fun (_ : @kwargs Z) (w : unit) => (Ok 7, w) in
  let self := (calls objects_get (fun _ => true) Some (__init__ (Some fabric))
                 [call_get [("a", 1)]; call_forget_last; call_get [("b", 2)]]
                 (Env tt [])).1 in
  _cache self !! [("b", 2)] = Some (Some 7) /\
  is_Some (Some 7).
Proof.
  cbv zeta. split; [reflexivity|].
  destruct (cache_with_fabric_holds_objects
              (fun (_ : @kwargs Z) (w : unit) => (@Raise Z DoesNotExist, w))
              (fun _ => true) Some
              (fun (_ : @kwargs Z) (w : unit) => (Ok 7, w))
              [call_get [("a", 1)]; call_forget_last; call_get [("b", 2)]]
              (Env tt []) (Env tt []) [("b", 2)]) as [Hall _].
  exact (Hall [("b", 2)] (Some 7) eq_refl).
Defined.

End CacheRunsFacts.

(** ** TransactionCM in a [with] statement *)
Module WithBlockFacts.
Import TransactionCM WithBlock.

(** X11.  In [with TransactionCM(using, catcher): body], the transaction
    calls are those of [__enter__] and of the body followed by exactly one
    [commit] or [rollback].  When the body raises, its exception leaves
    the statement if and only if the transaction is rolled back: a catcher
    that commits swallows the exception.  Without a catcher a body that
    ends normally is committed and a body that raises is rolled back and
    its exception goes on. *)
Theorem with_block_commits_or_reraises {R : Type} (alias : option string)
    (catcher : option (exc_info -> value))
    (body : list tx_event -> result R * list tx_event) (tx : list tx_event) :
  let self := __init__ alias catcher in
  let after_body :=
    snd (body (tx ++ [enter_transaction_management true alias])) in
  let out := fst (with_block self body tx) in
  let tx' := snd (with_block self body tx) in
  (tx' = after_body ++ [commit alias] \/
   tx' = after_body ++ [rollback alias]) /\
  match fst (body (tx ++ [enter_transaction_management true alias])) with
  | Ok v =>
      out = Ok (Some v) /\
      (catcher = None -> tx' = after_body ++ [commit alias])
  | Raise e =>
      (out = Raise e <-> tx' = after_body ++ [rollback alias]) /\
      (out = Ok None <-> tx' = after_body ++ [commit alias]) /\
      (catcher = None ->
         out = Raise e /\ tx' = after_body ++ [rollback alias])
  end.
Proof.
  cbv zeta. unfold with_block, __enter__, __exit__, __init__. simpl.
  set (c := match catcher with Some c => c | None => _default_catcher end).
  assert (Hdef : catcher = None ->
            truthy (c (ExcInfo None None None)) = true /\
            forall e, truthy (c (ExcInfo (Some e) None None)) = false).
  { by intros ->. }
  clearbody c.
  destruct (body (tx ++ [enter_transaction_management true alias]))
    as [[v|e] tx1]; simpl.
  - destruct (truthy (c (ExcInfo None None None))) eqn:Ht; simpl.
    + split; [by left|]. by split.
    + split; [by right|]. split; [done|].
      intros Hnone. destruct (Hdef Hnone) as [Hyes _]. congruence.
  - assert (Hne : tx1 ++ [commit alias] <> tx1 ++ [rollback alias]).
    { intros Heq. by apply app_inv_head in Heq. }
    destruct (truthy (c (ExcInfo (Some e) None None))) eqn:Ht; simpl;
      rewrite Ht; simpl.
    + split; [by left|]. split; [|split].
      * split; [done|]. intros Heq. by destruct Hne.
      * done.
      * intros Hnone. destruct (Hdef Hnone) as [_ Hno].
        specialize (Hno e). congruence.
    + split; [by right|]. split; [|split].
      * done.
      * split; [done|]. intros Heq. by destruct Hne.
      * done.
Qed.

(** A catcher that lets [ValueError] pass as success. *)
Lemma with_block_commits_or_reraises_witness :
  let catcher := fun args : exc_info =>
    VBool (match ex_type args with
           | None | Some ValueError => true
           | Some _ => false
           end) in
  let body := fun tx : list tx_event => (@Raise unit ValueError, tx) in
  with_block (__init__ None (Some catcher)) body [] =
    (Ok None, [enter_transaction_management true None; commit None]) /\
  with_block (__init__ None None) body [] =
    (Raise ValueError, [enter_transaction_management true None; rollback None]).
Proof.
  cbv zeta. split; [reflexivity|].
  destruct (with_block_commits_or_reraises None None
              (fun tx : list tx_event => (@Raise unit ValueError, tx)) [])
    as (_ & _ & _ & Hdefault).
  destruct (Hdefault eq_refl) as [Hout Htx].
  rewrite (surjective_pairing (with_block _ _ _)). by rewrite Hout, Htx.
Defined.

End WithBlockFacts.

(** ** Dates from requests; [int] and whitespace *)
Module RequestDatesFacts.
Import Request RequestDates PyFacts RequestFacts.

Lemma slice_to_take {A} (l : list A) (n : nat) :
  slice_to l (Z.of_nat n) = take n l.
Proof.
  unfold slice_to, clip. destruct (Z.ltb_spec (Z.of_nat n) 0); [lia|].
  destruct (Z_le_gt_dec (Z.of_nat n) (Z.of_nat (length l))).
  - rewrite Z.min_l by lia. by rewrite Nat2Z.id.
  - rewrite Z.min_r by lia. rewrite Nat2Z.id.
    rewrite !take_ge; [done|lia|lia].
Qed.

Lemma normalized_chars (s : string) :
  chars (normalized s) =
  List.map (fun c => if Ascii.eqb c "-" then "."%char else c) (take 10 (chars s)).
Proof.
  unfold normalized, replace. rewrite chars_str, chars_str.
  by rewrite (slice_to_take _ 10).
Qed.

Lemma normalized_empty (s : string) : normalized s = "" <-> s = "".
Proof.
  split; [|by intros ->].
  intros Hn. apply (f_equal chars) in Hn. rewrite normalized_chars in Hn.
  destruct s as [|c s]; [done|]. discriminate.
Qed.

Lemma str_to_date_normalized {datetime : Type}
    (strptime : string -> string -> result datetime) (s1 s2 : string) :
  normalized s1 = normalized s2 ->
  str_to_date strptime (Some s1) = str_to_date strptime (Some s2).
Proof.
  intros Hn. unfold str_to_date. fold (normalized s1). fold (normalized s2).
  rewrite <- Hn.
  assert (truthy_str s1 = truthy_str s2) as ->; [|done].
  unfold truthy_str. f_equal.
  destruct (String.eqb_spec s1 ""), (String.eqb_spec s2 ""); try done.
  - subst s1. change (normalized "") with "" in Hn. symmetry in Hn.
    apply (proj1 (normalized_empty _)) in Hn. congruence.
  - subst s2. change (normalized "") with "" in Hn.
    apply (proj1 (normalized_empty _)) in Hn. congruence.
Qed.

Lemma str_to_date_no_ValueError {datetime : Type}
    (strptime : string -> string -> result datetime) (raw : option string) :
  str_to_date strptime raw <> Raise ValueError.
Proof.
  unfold str_to_date. destruct raw as [s|]; [|done].
  destruct (truthy_str s); [|done].
  destruct (strptime _ "%d.%m.%Y") as [d|e]; simpl; [done|].
  destruct (exn_eqb e ValueError) eqn:He.
  - destruct (strptime _ "%Y.%m.%d") as [d|e']; simpl; [done|].
    destruct (exn_eqb e' ValueError) eqn:He'; [done|].
    intros [= ->]. done.
  - intros [= ->]. done.
Qed.

(** X12.  [str_to_date] looks at the first ten characters only and takes
    a dash for a dot: text after the tenth character changes nothing, and
    neither does writing the separators as dashes or as dots. *)
Theorem str_to_date_reads_ten_characters {datetime : Type}
    (strptime : string -> string -> result datetime) (s rest : string) :
  (length (chars s) = 10%nat ->
     str_to_date strptime (Some (s +:+ rest)) = str_to_date strptime (Some s)) /\
  str_to_date strptime (Some (replace s "-" ".")) =
    str_to_date strptime (Some s) /\
  str_to_date strptime (Some (normalized s)) = str_to_date strptime (Some s).
Proof.
  assert (Hidem : forall l : list ascii,
    List.map (fun c => if Ascii.eqb c "-" then "."%char else c)
      (List.map (fun c => if Ascii.eqb c "-" then "."%char else c) l) =
    List.map (fun c => if Ascii.eqb c "-" then "."%char else c) l).
  { intros l. rewrite List.map_map. apply List.map_ext. intros c.
    destruct (Ascii.eqb_spec c "-") as [->|Hc]; [done|].
    by destruct (Ascii.eqb_spec c "-"). }
  split; [|split].
  - intros Hlen. apply str_to_date_normalized. apply chars_inj.
    rewrite !normalized_chars, chars_app. f_equal.
    rewrite take_app_le by lia. by rewrite !take_ge by lia.
  - apply str_to_date_normalized. apply chars_inj.
    rewrite !normalized_chars. unfold replace at 1. rewrite chars_str.
    change (@List.map ascii ascii) with (@fmap list _ ascii ascii).
    rewrite <- fmap_take.
    change (@fmap list _ ascii ascii) with (@List.map ascii ascii).
    apply Hidem.
  - apply str_to_date_normalized. apply chars_inj.
    rewrite (normalized_chars (normalized s)), !normalized_chars.
    rewrite take_ge; [apply Hidem|].
    rewrite length_map, length_take. lia.
Qed.

Lemma str_to_date_reads_ten_characters_witness :
  let strptime := fun s fmt : string =>
    if String.eqb s "2012.12.31" then
      if String.eqb fmt "%Y.%m.%d" then Ok 20121231 else Raise ValueError
    else Raise ValueError in
  length (chars "2012-12-31") = 10%nat /\
  str_to_date strptime (Some "2012-12-31, Happy New Year") =
    str_to_date strptime (Some "2012-12-31").
Proof.
  cbv zeta. split; [reflexivity|].
  exact (proj1 (str_to_date_reads_ten_characters _ "2012-12-31"
                  ", Happy New Year") eq_refl).
Defined.

Section ExtractDate.
Context {datetime date : Type}.
Variable strptime : string -> string -> result datetime.
Variable date_of : datetime -> date.

(** X13.  [extract_date] gives [None] for a parameter that is missing or
    empty, asking [strptime] nothing, and never raises [ValueError]; with
    [as_date] it returns the date of what it returns without. *)
Theorem extract_date_of_request (request : HttpRequest) (key : string) :
  (REQUEST request !! key = None \/ REQUEST request !! key = Some "" ->
     forall as_date,
       extract_date strptime date_of request key as_date = Ok None) /\
  (forall as_date,
     extract_date strptime date_of request key as_date <> Raise ValueError) /\
  extract_date strptime date_of request key true =
    bind (extract_date strptime date_of request key false) (fun res =>
    match res with
    | Some (inl d) => Ok (Some (inr (date_of d)))
    | Some (inr d) => Ok (Some (inr d))
    | None => Ok None
    end).
Proof.
  split; [|split].
  - intros [Hk|Hk] as_date; unfold extract_date; by rewrite Hk.
  - intros as_date. unfold extract_date.
    pose proof (str_to_date_no_ValueError strptime
                  (REQUEST request !! key)) as Hno.
    destruct (str_to_date strptime (REQUEST request !! key)) as [[d|]|e];
      simpl; [by destruct as_date|done|congruence].
  - unfold extract_date.
    by destruct (str_to_date strptime (REQUEST request !! key)) as [[d|]|e].
Qed.

End ExtractDate.

Lemma extract_date_of_request_witness :
  let strptime := fun s fmt : string =>
    if String.eqb fmt "%d.%m.%Y" then Ok 20121231 else @Raise Z ValueError in
  let request := {| REQUEST := {[ "till" := ""; "from" := "31.12.2012" ]} |} in
  (REQUEST request !! "till" = None \/ REQUEST request !! "till" = Some "") /\
  extract_date strptime Z.to_nat request "till" true = Ok None /\
  extract_date strptime Z.to_nat request "from" true =
    Ok (Some (inr (Z.to_nat 20121231))).
Proof.
  cbv zeta. split; [by right|]. split.
  - apply (proj1 (extract_date_of_request
                    (fun s fmt : string =>
                       if String.eqb fmt "%d.%m.%Y" then Ok 20121231
                       else @Raise Z ValueError)
                    Z.to_nat
                    {| REQUEST := {[ "till" := ""; "from" := "31.12.2012" ]} |}
                    "till")).
    by right.
  - reflexivity.
Defined.

(** ** [int] and whitespace *)

Lemma lstrip_chars_head (l : list ascii) (c : ascii) (t : list ascii) :
  lstrip_chars l = c :: t -> is_space c = false.
Proof.
  induction l as [|d l IH]; simpl; [done|].
  destruct (is_space d) eqn:Hd; [done|]. by intros [= <- _].
Qed.

Lemma lstrip_chars_prefix (l : list ascii) :
  exists pre, l = pre ++ lstrip_chars l.
Proof.
  induction l as [|d l [pre IH]]; simpl; [by exists []|].
  destruct (is_space d); [|by exists []].
  exists (d :: pre). simpl. by rewrite <- IH.
Qed.

Lemma lstrip_chars_fixed (l : list ascii) :
  match l with c :: _ => is_space c = false | [] => True end ->
  lstrip_chars l = l.
Proof. destruct l as [|c l]; simpl; [done|]. by intros ->. Qed.

Lemma strip_chars_idem (l : list ascii) :
  strip_chars (strip_chars l) = strip_chars l.
Proof.
  unfold strip_chars.
  set (m := lstrip_chars l). set (r := lstrip_chars (rev m)).
  assert (Hleft : lstrip_chars (rev r) = rev r).
  { apply lstrip_chars_fixed.
    destruct (lstrip_chars_prefix (rev m)) as [pre Hpre]. fold r in Hpre.
    apply (f_equal (@rev ascii)) in Hpre.
    rewrite rev_involutive, rev_app_distr in Hpre.
    destruct (rev r) as [|c t] eqn:Hr; [done|].
    simpl in Hpre. by apply (lstrip_chars_head l c (t ++ rev pre)). }
  rewrite Hleft, rev_involutive. f_equal.
  apply lstrip_chars_fixed.
  destruct r as [|c t] eqn:Hr; [done|].
  by apply (lstrip_chars_head (rev m) c t).
Qed.

Lemma int_strip (s : string) : int (strip s) = int s.
Proof.
  unfold int, strip. by rewrite PyFacts.chars_str, strip_chars_idem.
Qed.

Lemma map_result_ext {X Y} (f g : X -> result Y) (l : list X) :
  (forall x, f x = g x) -> map_result f l = map_result g l.
Proof.
  intros Hfg. induction l as [|x l IH]; simpl; [done|]. by rewrite Hfg, IH.
Qed.

(** X14.  [int] does not mind whitespace around the number, so the
    [strip] of [int_list] changes nothing, and on a parameter without an
    empty item [extract_int_list] and [int_list] give the same result
    (they differ on empty items, which the first drops and the second
    cannot parse). *)
Theorem int_list_agrees_with_extract_int_list (request : HttpRequest)
    (key raw_str : string) :
  (forall s, int (strip s) = int s) /\
  int_list raw_str = map_result int (split raw_str ",") /\
  (REQUEST request !! key = Some raw_str ->
   (forall i, i ∈ split raw_str "," -> i <> "") ->
   extract_int_list request key = int_list raw_str).
Proof.
  split; [apply int_strip|]. split.
  - unfold int_list. apply map_result_ext, int_strip.
  - intros Hk Hitems. unfold extract_int_list, int_list, REQUEST_get.
    rewrite Hk. rewrite forallb_filter_id.
    + symmetry. apply map_result_ext, int_strip.
    + apply forallb_forall. intros i Hi. apply truthy_str_true.
      apply Hitems. by apply list_elem_of_In.
Qed.


Lemma int_list_agrees_with_extract_int_list_witness :
  let request := {| REQUEST := {[ "ids" := "10,20, 30" ]} |} in
  REQUEST request !! "ids" = Some "10,20, 30" /\
  (forall i, i ∈ split "10,20, 30" "," -> i <> "") /\
  extract_int_list request "ids" = int_list "10,20, 30".
Proof.
  cbv zeta. split; [reflexivity|].
  assert (Hitems : forall i, i ∈ split "10,20, 30" "," -> i <> "").
  { intros i Hi. change (split "10,20, 30" ",") with ["10"; "20"; " 30"] in Hi.
    repeat (apply elem_of_cons in Hi as [->|Hi]; [discriminate|]).
    by apply elem_of_nil in Hi. }
  split; [exact Hitems|].
  exact (proj2 (proj2 (int_list_agrees_with_extract_int_list
                         {| REQUEST := {[ "ids" := "10,20, 30" ]} |}
                         "ids" "10,20, 30")) eq_refl Hitems).
Defined.

End RequestDatesFacts.

(** ** matcher and model_to_dict: what the patterns decide *)
Module PatternFacts.
Import Matcher ModelToDict PyFacts MatcherFacts.

Lemma glob_star (s : string) : glob "*" s.
Proof. unfold glob. simpl. by exists "", s. Qed.

Lemma matcher_false (include exclude : option (list string)) (s : string) :
  matcher include exclude s = false <-> ~ permitted_by include exclude s.
Proof.
  rewrite <- matcher_permitted. by destruct (matcher include exclude s).
Qed.

(** X15.  In [matcher] an exclude pattern wins over any include pattern;
    without patterns at all every string is kept; the pattern ['*'] alone
    matches every string, so it keeps everything as an include and drops
    everything as an exclude. *)
Theorem exclude_wins (include exclude : option (list string)) (s : string) :
  ((exists p, p ∈ patterns_of exclude /\ glob p s) ->
     matcher include exclude s = false) /\
  (patterns_of include = [] -> patterns_of exclude = [] ->
     matcher include exclude s = true) /\
  ("*" ∈ patterns_of include -> patterns_of exclude = [] ->
     matcher include exclude s = true) /\
  ("*" ∈ patterns_of exclude -> matcher include exclude s = false).
Proof.
  split; [|split; [|split]].
  - intros Hex. apply matcher_false. by intros [_ Hno].
  - intros Hinc Hexc. apply matcher_permitted. split; [by left|].
    rewrite Hexc. by intros (p & []%elem_of_nil & _).
  - intros Hstar Hexc. apply matcher_permitted. split.
    + right. exists "*". split; [done|apply glob_star].
    + rewrite Hexc. by intros (p & []%elem_of_nil & _).
  - intros Hstar. apply matcher_false. intros [_ Hno]. apply Hno.
    exists "*". split; [done|apply glob_star].
Qed.

Lemma exclude_wins_witness :
  (exists p, p ∈ patterns_of (Some ["*_id"]) /\ glob p "owner_id") /\
  matcher (Some ["owner*"; "owner_id"]) (Some ["*_id"]) "owner_id" = false.
Proof.
  assert (Hex : exists p, p ∈ patterns_of (Some ["*_id"]) /\ glob p "owner_id").
  { exists "*_id". split; [by left|]. by exists "_id", "owner". }
  split; [exact Hex|].
  exact (proj1 (exclude_wins (Some ["owner*"; "owner_id"]) (Some ["*_id"])
                  "owner_id") Hex).
Defined.

(** X16.  A pattern with a star at both ends is not a "contains" pattern:
    its final star makes it a prefix pattern whose prefix begins with a
    literal star, so it matches only strings that start with ['*'] and
    the middle part. *)
Theorem star_at_both_ends_is_a_prefix (middle s : string) :
  let pattern := "*" +:+ middle +:+ "*" in
  (matcher (Some [pattern]) None s = true <->
     exists rest, s = "*" +:+ middle +:+ rest) /\
  (startswith s "*" = false -> matcher (Some [pattern]) None s = false).
Proof.
  cbv zeta.
  assert (Hglob : glob ("*" +:+ middle +:+ "*") s <->
                  exists rest, s = "*" +:+ middle +:+ rest).
  { unfold glob.
    assert (endswith ("*" +:+ middle +:+ "*") "*" = true) as ->.
    { apply endswith_spec. exists ("*" +:+ middle).
      apply chars_inj. rewrite !chars_app. by rewrite <- app_assoc. }
    split.
    - intros (p & rest & Hp & ->). exists rest.
      assert (p = "*" +:+ middle) as ->.
      { apply (append_inj_l _ _ "*"). rewrite <- Hp.
        apply chars_inj. rewrite !chars_app. by rewrite <- app_assoc. }
      apply chars_inj. rewrite !chars_app. by rewrite <- app_assoc.
    - intros [rest ->]. exists ("*" +:+ middle), rest. split.
      + apply chars_inj. rewrite !chars_app. by rewrite <- app_assoc.
      + apply chars_inj. rewrite !chars_app. by rewrite <- app_assoc. }
  assert (Hm : matcher (Some ["*" +:+ middle +:+ "*"]) None s = true <->
               exists rest, s = "*" +:+ middle +:+ rest).
  { rewrite matcher_permitted, <- Hglob. unfold permitted_by. simpl. split.
    - intros [[?|(p & Hp & Hg)] _]; [done|].
      apply list_elem_of_singleton in Hp. by subst p.
    - intros Hg. split.
      + right. eexists. split; [by apply list_elem_of_singleton|done].
      + by intros (p & []%elem_of_nil & _). }
  split; [exact Hm|].
  intros Hstart. apply not_true_is_false. intros Hmatch.
  apply Hm in Hmatch as [rest ->].
  assert (startswith ("*" +:+ middle +:+ rest) "*" = true) as Hyes.
  { apply startswith_spec. by exists (middle +:+ rest). }
  congruence.
Qed.

Lemma star_at_both_ends_is_a_prefix_witness :
  startswith "user_id_old" "*" = false /\
  matcher (Some ["*_id*"]) None "user_id_old" = false.
Proof.
  split; [reflexivity|].
  exact (proj2 (star_at_both_ends_is_a_prefix "_id" "user_id_old") eq_refl).
Defined.

Lemma permitted_by_same_patterns (include include' exclude exclude' : option (list string))
    (s : string) :
  (forall p, p ∈ patterns_of include <-> p ∈ patterns_of include') ->
  (forall p, p ∈ patterns_of exclude <-> p ∈ patterns_of exclude') ->
  permitted_by include exclude s -> permitted_by include' exclude' s.
Proof.
  intros Hinc Hexc [Hkeep Hdrop]. split.
  - destruct Hkeep as [Hnil|(p & Hp & Hg)].
    + left. destruct (patterns_of include') as [|p l]; [done|].
      assert (p ∈ patterns_of include) as Hp by (apply Hinc; by left).
      rewrite Hnil in Hp. by apply elem_of_nil in Hp.
    + right. exists p. split; [by apply Hinc|done].
  - intros (p & Hp & Hg). apply Hdrop. exists p. split; [by apply Hexc|done].
Qed.

Lemma matcher_same_patterns (include include' exclude exclude' : option (list string))
    (s : string) :
  (forall p, p ∈ patterns_of include <-> p ∈ patterns_of include') ->
  (forall p, p ∈ patterns_of exclude <-> p ∈ patterns_of exclude') ->
  matcher include exclude s = matcher include' exclude' s.
Proof.
  intros Hinc Hexc.
  destruct (matcher include' exclude' s) eqn:Hm.
  - apply matcher_permitted. apply matcher_permitted in Hm.
    revert Hm. apply permitted_by_same_patterns; intros p; by symmetry.
  - apply matcher_false. apply matcher_false in Hm. intros Hp. apply Hm.
    revert Hp. by apply permitted_by_same_patterns.
Qed.

Lemma exclude_star (include exclude : option (list string)) (s : string) :
  "*" ∈ patterns_of exclude -> matcher include exclude s = false.
Proof.
  intros Hstar. apply matcher_false. intros [_ Hno]. apply Hno.
  exists "*". split; [done|apply glob_star].
Qed.

Section Serializer.
Context {Val : Type}.
Variable none : Val.
Variable attr_id : Val -> result Val.
Variable unicode : Val -> result Val.

Lemma serialize_same_permitted (permitted permitted' : string -> bool)
    (obj : model Val) (flds : list field) :
  (forall fld, fld ∈ flds -> permitted (attname fld) = permitted' (attname fld)) ->
  forall res0,
  serialize none attr_id unicode permitted obj flds res0 =
  serialize none attr_id unicode permitted' obj flds res0.
Proof.
  induction flds as [|fld flds IH]; intros Hsame res0; [done|].
  simpl. rewrite <- (Hsame fld) by left.
  assert (Hrest : forall res0,
    serialize none attr_id unicode permitted obj flds res0 =
    serialize none attr_id unicode permitted' obj flds res0).
  { apply IH. intros f Hf. apply Hsame. by right. }
  destruct (permitted (attname fld)); [|apply Hrest].
  destruct (attr_of fld) as [attr|]; simpl; [|done].
  destruct (attrgetter obj attr) as [val|e].
  - destruct (value_of none attr_id unicode fld val); simpl; [apply Hrest|done].
  - destruct (exn_eqb e AttributeError); [apply Hrest|done].
Qed.

(** X17.  [matcher] and [model_to_dict] depend on the pattern lists only
    through the patterns they contain: the order of the patterns and
    repeated patterns make no difference, and neither does passing [None]
    or an empty list. *)
Theorem patterns_are_a_set (include include' exclude exclude' : option (list string))
    (obj : model Val) (s : string) :
  (forall p, p ∈ patterns_of include <-> p ∈ patterns_of include') ->
  (forall p, p ∈ patterns_of exclude <-> p ∈ patterns_of exclude') ->
  matcher include exclude s = matcher include' exclude' s /\
  model_to_dict none attr_id unicode obj include exclude =
  model_to_dict none attr_id unicode obj include' exclude'.
Proof.
  intros Hinc Hexc. split; [by apply matcher_same_patterns|].
  unfold model_to_dict. apply serialize_same_permitted.
  intros fld _. by apply matcher_same_patterns.
Qed.

Lemma serialize_nothing_permitted (permitted : string -> bool)
    (obj : model Val) (flds : list field) :
  (forall fld, fld ∈ flds -> permitted (attname fld) = false) ->
  forall res0, serialize none attr_id unicode permitted obj flds res0 = Ok res0.
Proof.
  induction flds as [|fld flds IH]; intros Hnone res0; [done|].
  simpl. rewrite Hnone by left. apply IH. intros f Hf. apply Hnone. by right.
Qed.

(** X18.  When the patterns permit none of the field names,
    [model_to_dict] returns the empty dictionary without reading any
    attribute of the object, so it cannot raise; in particular with ['*']
    among the exclude patterns. *)
Theorem model_to_dict_nothing_permitted (obj : model Val)
    (include exclude : option (list string)) :
  ((forall fld, fld ∈ fields obj ->
      matcher include exclude (attname fld) = false) ->
   model_to_dict none attr_id unicode obj include exclude = Ok ∅) /\
  ("*" ∈ patterns_of exclude ->
   model_to_dict none attr_id unicode obj include exclude = Ok ∅).
Proof.
  split.
  - intros Hnone. unfold model_to_dict. by apply serialize_nothing_permitted.
  - intros Hstar. unfold model_to_dict. apply serialize_nothing_permitted.
    intros fld _. by apply exclude_star.
Qed.

Lemma serialize_asserts (permitted : string -> bool) (obj : model Val)
    (flds : list field) :
  forall res0 res,
  serialize none attr_id unicode permitted obj flds res0 = Ok res ->
  forall fld, fld ∈ flds -> permitted (attname fld) = true ->
  is_related fld = true -> endswith (attname fld) "_id" = true.
Proof.
  induction flds as [|f flds IH]; intros res0 res Hser fld Hfld Hperm Hrel.
  { by apply elem_of_nil in Hfld. }
  simpl in Hser.
  apply elem_of_cons in Hfld as [->|Hfld].
  - rewrite Hperm in Hser. unfold attr_of in Hser. rewrite Hrel in Hser.
    by destruct (endswith (attname f) "_id").
  - destruct (permitted (attname f)); [|by apply (IH _ _ Hser)].
    destruct (attr_of f) as [attr|]; simpl in Hser; [|done].
    destruct (attrgetter obj attr) as [val|e].
    + destruct (value_of none attr_id unicode f val); simpl in Hser; [|done].
      by apply (IH _ _ Hser).
    + destruct (exn_eqb e AttributeError); [|done]. by apply (IH _ _ Hser).
Qed.

(** X19.  [model_to_dict] returns a dictionary only if the name of every
    permitted related field ends with ['_id']; such a field with another
    name makes the call raise, and [AssertionError] when it is the first
    field of the list. *)
Theorem related_fields_end_with_id (obj : model Val)
    (include exclude : option (list string)) :
  (forall res fld,
     model_to_dict none attr_id unicode obj include exclude = Ok res ->
     fld ∈ fields obj -> matcher include exclude (attname fld) = true ->
     is_related fld = true -> endswith (attname fld) "_id" = true) /\
  (forall fld rest,
     fields obj = fld :: rest -> matcher include exclude (attname fld) = true ->
     is_related fld = true -> endswith (attname fld) "_id" = false ->
     model_to_dict none attr_id unicode obj include exclude =
     Raise AssertionError).
Proof.
  split.
  - intros res fld Hres. unfold model_to_dict in Hres.
    by apply (serialize_asserts _ _ _ _ _ Hres).
  - intros fld rest Hfields Hperm Hrel Hend. unfold model_to_dict.
    rewrite Hfields. simpl. rewrite Hperm. unfold attr_of.
    by rewrite Hrel, Hend.
Qed.

End Serializer.

Lemma patterns_are_a_set_witness :
  let obj := Model [Field "name" false; Field "age" false]
               (fun attr => if String.eqb attr "name" then Ok 1 else Ok 2) in
  (forall p, p ∈ patterns_of (Some ["na*"; "age"; "na*"]) <->
             p ∈ patterns_of (Some ["age"; "na*"])) /\
  (forall p, p ∈ patterns_of None <-> p ∈ patterns_of (Some [])) /\
  model_to_dict 0 (fun v : Z => Ok v) (fun v : Z => Ok v) obj
    (Some ["na*"; "age"; "na*"]) None =
  model_to_dict 0 (fun v : Z => Ok v) (fun v : Z => Ok v) obj
    (Some ["age"; "na*"]) (Some []).
Proof.
  cbv zeta.
  assert (Hinc : forall p, p ∈ patterns_of (Some ["na*"; "age"; "na*"]) <->
                           p ∈ patterns_of (Some ["age"; "na*"])).
  { intros p. simpl. rewrite !elem_of_cons. tauto. }
  assert (Hexc : forall p, p ∈ patterns_of None <-> p ∈ patterns_of (Some [])).
  { done. }
  split; [exact Hinc|]. split; [exact Hexc|].
  exact (proj2 (patterns_are_a_set 0 (fun v : Z => Ok v) (fun v : Z => Ok v)
                  (Some ["na*"; "age"; "na*"]) (Some ["age"; "na*"]) None (Some [])
                  (Model [Field "name" false; Field "age" false]
                     (fun attr => if String.eqb attr "name" then Ok 1 else Ok 2))
                  "" Hinc Hexc)).
Defined.

(** An object none of whose attributes can be read. *)
Lemma model_to_dict_nothing_permitted_witness :
  let obj := Model [Field "name" false; Field "owner" true]
               (fun _ => @Raise Z (OtherError "database is down")) in
  "*" ∈ patterns_of (Some ["secret"; "*"]) /\
  model_to_dict 0 (fun v : Z => Ok v) (fun v : Z => Ok v) obj
    None (Some ["secret"; "*"]) = Ok ∅.
Proof.
  cbv zeta.
  assert (Hstar : "*" ∈ patterns_of (Some ["secret"; "*"])).
  { simpl. rewrite !elem_of_cons. tauto. }
  split; [exact Hstar|].
  exact (proj2 (model_to_dict_nothing_permitted 0 (fun v : Z => Ok v)
                  (fun v : Z => Ok v)
                  (Model [Field "name" false; Field "owner" true]
                     (fun _ => @Raise Z (OtherError "database is down")))
                  None (Some ["secret"; "*"])) Hstar).
Defined.

Lemma related_fields_end_with_id_witness :
  let obj := Model [Field "owner" true; Field "name" false] (fun _ => Ok 1) in
  fields obj = [Field "owner" true; Field "name" false] /\
  matcher None None "owner" = true /\ endswith "owner" "_id" = false /\
  model_to_dict 0 (fun v : Z => Ok v) (fun v : Z => Ok v) obj None None =
    Raise AssertionError.
Proof.
  cbv zeta. split; [reflexivity|]. split; [reflexivity|].
  split; [reflexivity|].
  exact (proj2 (related_fields_end_with_id 0 (fun v : Z => Ok v)
                  (fun v : Z => Ok v)
                  (Model [Field "owner" true; Field "name" false] (fun _ => Ok 1))
                  None None)
           (Field "owner" true) [Field "name" false]
           eq_refl eq_refl eq_refl eq_refl).
Defined.

End PatternFacts.

(** ** find_element_by_type *)
Module WidgetsFacts.
Import Widgets.

Section Facts.
Context {W : Type}.
Variable isinstance : element W -> bool.

Lemma find_descendants (container : element W) :
  find isinstance container = List.filter isinstance (descendants container).
Proof.
  revert container. fix IH 1. intros [w [items|]]; [|done]. simpl.
  induction items as [|item rest IHrest]; [done|]. simpl.
  rewrite List.filter_app, <- IHrest.
  assert (Hitem : match items_of item with
                  | Some _ => find isinstance item
                  | None => []
                  end = List.filter isinstance (descendants item)).
  { rewrite <- (IH item). by destruct item as [w' [sub|]]. }
  rewrite Hitem. by destruct (isinstance item).
Qed.

Lemma size_positive (e : element W) : (0 < size e)%nat.
Proof. destruct e as [w [items|]]; simpl; lia. Qed.

Lemma descendants_smaller_bounded (n : nat) :
  forall container x : element W,
  (size container <= n)%nat ->
  x ∈ descendants container -> (size x < size container)%nat.
Proof.
  induction n as [|n IHn]; intros container x Hn.
  { pose proof (size_positive container). lia. }
  destruct container as [w [items|]]; simpl in *.
  2:{ by intros []%elem_of_nil. }
  apply Nat.succ_le_mono in Hn. revert Hn.
  induction items as [|item rest IHrest]; simpl; intros Hn.
  { by intros []%elem_of_nil. }
  rewrite elem_of_cons, elem_of_app. intros [->|[Hx|Hx]].
  - lia.
  - assert (size x < size item)%nat; [|lia]. apply IHn; [lia|done].
  - assert (size item + 0 <= size item)%nat by lia.
    specialize (IHrest ltac:(lia) Hx). lia.
Qed.

Lemma descendants_smaller (container x : element W) :
  x ∈ descendants container -> (size x < size container)%nat.
Proof. by apply (descendants_smaller_bounded (size container)). Qed.

(** X20.  For a container that has [items], [find_element_by_type]
    returns the instances of the class among all the elements below the
    container, each element before its own children and children from
    left to right; a container without [items] makes it raise
    [AttributeError]. *)
Theorem find_element_by_type_is_filtered_preorder (container : element W) :
  match items_of container with
  | Some _ =>
      find_element_by_type isinstance container =
      Ok (List.filter isinstance (descendants container))
  | None => find_element_by_type isinstance container = Raise AttributeError
  end.
Proof.
  unfold find_element_by_type.
  destruct (items_of container) eqn:Hitems; [|done].
  by rewrite find_descendants.
Qed.

(** X21.  Every element [find_element_by_type] returns is an instance of
    the class and lies strictly below the container: the container itself
    is never returned, even when it is an instance of the class. *)
Theorem find_element_by_type_below_container (container : element W)
    (found : list (element W)) :
  find_element_by_type isinstance container = Ok found ->
  (container ∉ found) /\
  (forall x, x ∈ found ->
     isinstance x = true /\ x ∈ descendants container /\
     (size x < size container)%nat).
Proof.
  unfold find_element_by_type.
  destruct (items_of container); [|done]. intros [= <-].
  rewrite find_descendants.
  assert (Hin : forall x, x ∈ List.filter isinstance (descendants container) ->
    isinstance x = true /\ x ∈ descendants container /\
    (size x < size container)%nat).
  { intros x Hx. apply list_elem_of_In, filter_In in Hx as [Hx Hinst].
    apply list_elem_of_In in Hx. split; [done|]. split; [done|].
    by apply descendants_smaller. }
  split; [|exact Hin].
  intros Hself. apply Hin in Hself as (_ & _ & Hlt). lia.
Qed.

End Facts.

(** A window with a panel holding two fields, and a button. *)
Lemma find_element_by_type_below_container_witness :
  let field1 := Element "field" None in
  let field2 := Element "field" None in
  let panel := Element "panel" (Some [field1; Element "label" None; field2]) in
  let window := Element "field" (Some [panel; Element "button" None]) in
  let is_field := fun e : element string =>
    match e with Element w _ => String.eqb w "field" end in
  find_element_by_type is_field window = Ok [field1; field2] /\
  window ∉ [field1; field2].
Proof.
  cbv zeta.
  assert (Hfind : find_element_by_type
            (fun e : element string =>
               match e with Element w _ => String.eqb w "field" end)
            (Element "field"
               (Some [Element "panel"
                        (Some [Element "field" None; Element "label" None;
                               Element "field" None]);
                      Element "button" None])) =
          Ok [Element "field" None; Element "field" None]) by reflexivity.
  split; [exact Hfind|].
  exact (proj1 (find_element_by_type_below_container _ _ _ Hfind)).
Defined.

End WidgetsFacts.

(** ** collect_overlaps *)
Module OverlapsFacts.
Import Overlaps.

Lemma chain_dates (a b c : Z) :
  chain (Date a) (Date b) (Date c) = Ok ((a <=? b) && (b <=? c))%bool.
Proof. unfold chain. simpl. by destruct (a <=? b). Qed.

(** On four dates, the four tests of [add] come to the usual test for two
    intervals that meet. *)
Lemma add_dates (ob oe b e : Z) (item : instance) (res : list instance) :
  ob <= oe -> b <= e ->
  add (Date ob) (Date oe) (Date b) (Date e) item res =
  Ok (if meet ob oe b e then res ++ [item] else res).
Proof.
  intros Hobj Hitem. unfold add. rewrite !chain_dates. simpl.
  assert (((b <=? ob) && (ob <=? e) || (b <=? oe) && (oe <=? e) ||
           (ob <=? b) && (b <=? oe) || (ob <=? e) && (e <=? oe))%bool =
          meet ob oe b e) as ->; [|done].
  unfold meet.
  destruct (Z.leb_spec b ob), (Z.leb_spec ob e), (Z.leb_spec b oe),
    (Z.leb_spec oe e), (Z.leb_spec ob b), (Z.leb_spec e oe); simpl;
    try reflexivity; lia.
Qed.

Lemma add_dates_ok (ob oe b e : Z) (item : instance) (res : list instance) :
  exists res', add (Date ob) (Date oe) (Date b) (Date e) item res = Ok res'.
Proof. unfold add. rewrite !chain_dates. simpl. eauto. Qed.

Lemma meets_dates (attr_begin attr_end : string) (ob oe b e : Z)
    (item : instance) :
  getattr item attr_begin = Some (Date b) ->
  getattr item attr_end = Some (Date e) ->
  meets attr_begin attr_end ob oe item = meet ob oe b e.
Proof. intros Hb He. unfold meets. by rewrite Hb, He. Qed.

Lemma loop_dates (attr_begin attr_end : string) (ob oe : Z)
    (items : list instance) :
  ob <= oe ->
  (forall item, item ∈ items -> date_interval attr_begin attr_end item) ->
  forall res,
  loop attr_begin attr_end (Date ob) (Date oe) items res =
  Ok (res ++ List.filter (meets attr_begin attr_end ob oe) items).
Proof.
  intros Hobj. induction items as [|item items IH]; intros Hitems res; simpl.
  { by rewrite app_nil_r. }
  destruct (Hitems item ltac:(by left)) as (b & e & Hb & He & Hbe).
  rewrite Hb, He, add_dates by done.
  rewrite (meets_dates _ _ _ _ b e) by done.
  rewrite IH by (intros i Hi; apply Hitems; by right).
  destruct (meet ob oe b e); [|done]. by rewrite <- app_assoc.
Qed.

(** X22.  When the bounds of the object and of every item are dates, each
    first bound not after the second, [collect_overlaps] returns, in the
    order of the queryset, exactly the items other than the object whose
    interval meets the object's: those that begin no later than the object
    ends and end no earlier than it begins. *)
Theorem collect_overlaps_of_dates (obj : instance) (queryset : list instance)
    (attr_begin attr_end : string) (ob oe : Z) :
  getattr obj attr_begin = Some (Date ob) ->
  getattr obj attr_end = Some (Date oe) -> ob <= oe ->
  (forall item, item ∈ queryset -> date_interval attr_begin attr_end item) ->
  collect_overlaps obj queryset attr_begin attr_end =
  Ok (List.filter (meets attr_begin attr_end ob oe) (others obj queryset)).
Proof.
  intros Hb He Hobj Hitems. unfold collect_overlaps. rewrite Hb, He.
  rewrite loop_dates; [done|done|].
  intros item Hitem. apply Hitems. unfold others, exclude in Hitem.
  destruct (obj_id obj) as [pk|]; [|done].
  destruct (pk =? 0); [done|].
  apply list_elem_of_In, filter_In in Hitem as [Hitem _].
  by apply list_elem_of_In.
Qed.

Lemma loop_datetime_to_dates (attr_begin attr_end : string)
    (d1 s1 d2 s2 : Z) (items : list instance) :
  (forall item, item ∈ items -> date_interval attr_begin attr_end item) ->
  forall res,
  loop attr_begin attr_end (DateTime d1 s1) (DateTime d2 s2) items res =
  loop attr_begin attr_end (Date d1) (Date d2) items res.
Proof.
  intros Hitems res. destruct items as [|item items]; [done|]. simpl.
  destruct (Hitems item ltac:(by left)) as (b & e & Hb & He & Hbe).
  rewrite Hb, He. simpl.
  destruct (add_dates_ok d1 d2 b e item res) as [res' Hadd].
  by rewrite Hadd.
Qed.

(** X23.  When the bounds of the object are datetimes and those of every
    item are dates, the first comparison fails and the object's bounds are
    turned into dates for the rest of the call: the result is the one for
    the days of the object's bounds. *)
Theorem collect_overlaps_datetime_against_dates (obj : instance)
    (queryset : list instance) (attr_begin attr_end : string)
    (d1 s1 d2 s2 : Z) :
  getattr obj attr_begin = Some (DateTime d1 s1) ->
  getattr obj attr_end = Some (DateTime d2 s2) -> d1 <= d2 ->
  (forall item, item ∈ queryset -> date_interval attr_begin attr_end item) ->
  collect_overlaps obj queryset attr_begin attr_end =
  Ok (List.filter (meets attr_begin attr_end d1 d2) (others obj queryset)).
Proof.
  intros Hb He Hobj Hitems. unfold collect_overlaps. rewrite Hb, He.
  assert (Hothers : forall item, item ∈ others obj queryset ->
                      date_interval attr_begin attr_end item).
  { intros item Hitem. apply Hitems. unfold others, exclude in Hitem.
    destruct (obj_id obj) as [pk|]; [|done].
    destruct (pk =? 0); [done|].
    apply list_elem_of_In, filter_In in Hitem as [Hitem _].
    by apply list_elem_of_In. }
  rewrite loop_datetime_to_dates by done.
  by rewrite loop_dates.
Qed.

Lemma loop_dates_against_datetimes (attr_begin attr_end : string)
    (ob oe : Z) (items : list instance) :
  (forall item, item ∈ items ->
     exists d s d' s', getattr item attr_begin = Some (DateTime d s) /\
                       getattr item attr_end = Some (DateTime d' s')) ->
  forall res,
  loop attr_begin attr_end (Date ob) (Date oe) items res = Ok res.
Proof.
  induction items as [|item items IH]; intros Hitems res; [done|]. simpl.
  destruct (Hitems item ltac:(by left)) as (d & s & d' & s' & Hb & He).
  rewrite Hb, He. simpl. apply IH. intros i Hi. apply Hitems. by right.
Qed.

(** X24.  When the bounds of the object are dates and those of every item
    are datetimes, every comparison fails and every item is passed over:
    the result is the empty list, whether the intervals meet or not. *)
Theorem collect_overlaps_dates_against_datetimes (obj : instance)
    (queryset : list instance) (attr_begin attr_end : string) (ob oe : Z) :
  getattr obj attr_begin = Some (Date ob) ->
  getattr obj attr_end = Some (Date oe) ->
  (forall item, item ∈ queryset ->
     exists d s d' s', getattr item attr_begin = Some (DateTime d s) /\
                       getattr item attr_end = Some (DateTime d' s')) ->
  collect_overlaps obj queryset attr_begin attr_end = Ok [].
Proof.
  intros Hb He Hitems. unfold collect_overlaps. rewrite Hb, He.
  apply loop_dates_against_datetimes.
  intros item Hitem. apply Hitems. unfold others, exclude in Hitem.
  destruct (obj_id obj) as [pk|]; [|done].
  destruct (pk =? 0); [done|].
  apply list_elem_of_In, filter_In in Hitem as [Hitem _].
  by apply list_elem_of_In.
Qed.

Lemma add_result (obj_bgn obj_end bgn end_ : moment) (item : instance)
    (res res' : list instance) :
  add obj_bgn obj_end bgn end_ item res = Ok res' ->
  res' = res \/ res' = res ++ [item].
Proof.
  unfold add.
  destruct (chain bgn obj_bgn end_) as [c1|]; simpl; [|done].
  destruct (chain bgn obj_end end_) as [c2|]; simpl; [|done].
  destruct (chain obj_bgn bgn obj_end) as [c3|]; simpl; [|done].
  destruct (chain obj_bgn end_ obj_end) as [c4|]; simpl; [|done].
  intros [= <-]. destruct (c1 || c2 || c3 || c4)%bool; auto.
Qed.

Lemma loop_result (attr_begin attr_end : string) (items : list instance) :
  forall (obj_bgn obj_end : moment) (res res' : list instance),
  loop attr_begin attr_end obj_bgn obj_end items res = Ok res' ->
  (exists kept, res' = res ++ kept /\ kept `sublist_of` items) /\
  (forall item, item ∈ items ->
     is_Some (getattr item attr_begin) /\ is_Some (getattr item attr_end)).
Proof.
  induction items as [|item items IH]; intros obj_bgn obj_end res res' Hloop.
  { injection Hloop as <-. split; [|by intros ? []%elem_of_nil].
    exists []. by rewrite app_nil_r. }
  simpl in Hloop.
  destruct (getattr item attr_begin) as [bgn|] eqn:Hb; [|done].
  destruct (getattr item attr_end) as [end_|] eqn:He; [|done].
  assert (Hstep : forall ob oe r,
    (r = res \/ r = res ++ [item]) ->
    loop attr_begin attr_end ob oe items r = Ok res' ->
    (exists kept, res' = res ++ kept /\ kept `sublist_of` item :: items) /\
    (forall i, i ∈ item :: items ->
       is_Some (getattr i attr_begin) /\ is_Some (getattr i attr_end))).
  { intros ob oe r Hr Hrest.
    destruct (IH ob oe r res' Hrest) as [(kept & -> & Hsub) Hall]. split.
    - destruct Hr as [->| ->].
      + exists kept. split; [done|]. by apply sublist_cons.
      + exists (item :: kept). rewrite <- app_assoc. split; [done|].
        by apply sublist_skip.
    - intros i [->|Hi]%elem_of_cons; [by rewrite Hb, He|by apply Hall]. }
  destruct (add obj_bgn obj_end bgn end_ item res) as [r|e] eqn:Hadd.
  { apply (Hstep obj_bgn obj_end r); [by apply add_result in Hadd|done]. }
  destruct (exn_eqb e TypeError); [|done].
  destruct (is_datetime obj_bgn && is_datetime obj_end)%bool.
  - destruct (add (date obj_bgn) (date obj_end) bgn end_ item res)
      as [r|e'] eqn:Hadd'; simpl in Hloop; [|done].
    apply (Hstep (date obj_bgn) (date obj_end) r);
      [by apply add_result in Hadd'|done].
  - apply (Hstep obj_bgn obj_end res); [by left|done].
Qed.

Lemma others_sublist (obj : instance) (queryset : list instance) :
  others obj queryset `sublist_of` queryset.
Proof.
  unfold others, exclude. destruct (obj_id obj) as [pk|]; [|done].
  destruct (pk =? 0); [done|].
  induction queryset as [|item queryset IH]; simpl; [done|].
  destruct (negb _); [by apply sublist_skip|by apply sublist_cons].
Qed.

(** X25.  An object that lacks a bound makes [collect_overlaps] raise
    [ValueError] whatever the queryset; and the call returns a list only
    if every item it compared has both bounds. *)
Theorem collect_overlaps_needs_bounds (obj : instance)
    (queryset : list instance) (attr_begin attr_end : string) :
  (getattr obj attr_begin = None \/ getattr obj attr_end = None ->
     collect_overlaps obj queryset attr_begin attr_end = Raise ValueError) /\
  (forall res,
     collect_overlaps obj queryset attr_begin attr_end = Ok res ->
     forall item, item ∈ others obj queryset ->
       is_Some (getattr item attr_begin) /\ is_Some (getattr item attr_end)).
Proof.
  unfold collect_overlaps. split.
  - intros [Hnone|Hnone]; rewrite Hnone; [done|].
    by destruct (getattr obj attr_begin).
  - intros res Hres.
    destruct (getattr obj attr_begin) as [ob|]; [|done].
    destruct (getattr obj attr_end) as [oe|]; [|done].
    by apply (loop_result _ _ _ _ _ _ _ Hres).
Qed.

(** X26.  What [collect_overlaps] returns is taken from the queryset
    without changing the order, and when the object has an [id] other than
    [0] no item with that [id] is in it: a saved object never overlaps
    itself. *)
Theorem collect_overlaps_selects (obj : instance) (queryset : list instance)
    (attr_begin attr_end : string) (res : list instance) :
  collect_overlaps obj queryset attr_begin attr_end = Ok res ->
  res `sublist_of` queryset /\
  (forall pk, obj_id obj = Some pk -> pk <> 0 ->
     forall item, item ∈ res -> obj_id item <> Some pk).
Proof.
  unfold collect_overlaps. intros Hres.
  destruct (getattr obj attr_begin) as [ob|]; [|done].
  destruct (getattr obj attr_end) as [oe|]; [|done].
  destruct (loop_result _ _ _ _ _ _ _ Hres) as [(kept & -> & Hsub) _].
  simpl. split.
  - etrans; [exact Hsub|apply others_sublist].
  - intros pk Hpk Hne item Hitem.
    pose proof (elem_of_sublist _ _ _ Hitem Hsub) as Hin.
    unfold others, exclude in Hin. rewrite Hpk in Hin.
    destruct (Z.eqb_spec pk 0); [done|].
    apply list_elem_of_In, filter_In in Hin as [_ Hid].
    apply negb_true_iff, bool_decide_eq_false in Hid. done.
Qed.

(** A booking of days 10 to 20 against bookings of days 1 to 9, 5 to 10
    and 20 to 30, and against itself. *)
Lemma collect_overlaps_of_dates_witness :
  let booking := fun pk b e =>
    Instance (Some pk) {[ "begin" := Date b; "end" := Date e ]} in
  let queryset := [booking 1 1 9; booking 2 5 10; booking 7 10 20; booking 3 20 30] in
  (forall item, item ∈ queryset -> date_interval "begin" "end" item) /\
  collect_overlaps (booking 7 10 20) queryset "begin" "end" =
    Ok [booking 2 5 10; booking 3 20 30].
Proof.
  cbv zeta.
  assert (Hitems : forall item,
    item ∈ [Instance (Some 1) {[ "begin" := Date 1; "end" := Date 9 ]};
            Instance (Some 2) {[ "begin" := Date 5; "end" := Date 10 ]};
            Instance (Some 7) {[ "begin" := Date 10; "end" := Date 20 ]};
            Instance (Some 3) {[ "begin" := Date 20; "end" := Date 30 ]}] ->
    date_interval "begin" "end" item).
  { intros item Hitem.
    repeat (apply elem_of_cons in Hitem as [->|Hitem];
            [eexists _, _; split; [reflexivity|]; split; [reflexivity|lia]|]).
    by apply elem_of_nil in Hitem. }
  split; [exact Hitems|].
  exact (collect_overlaps_of_dates
           (Instance (Some 7) {[ "begin" := Date 10; "end" := Date 20 ]})
           _ "begin" "end" 10 20 eq_refl eq_refl ltac:(lia) Hitems).
Defined.

Lemma collect_overlaps_datetime_against_dates_witness :
  let obj := Instance None {[ "begin" := DateTime 10 3600; "end" := DateTime 20 0 ]} in
  let item := Instance (Some 2) {[ "begin" := Date 5; "end" := Date 10 ]} in
  (forall i, i ∈ [item] -> date_interval "begin" "end" i) /\
  collect_overlaps obj [item] "begin" "end" = Ok [item].
Proof.
  cbv zeta.
  assert (Hitems : forall i,
    i ∈ [Instance (Some 2) {[ "begin" := Date 5; "end" := Date 10 ]}] ->
    date_interval "begin" "end" i).
  { intros i Hi. apply list_elem_of_singleton in Hi as ->.
    eexists _, _. split; [reflexivity|]. split; [reflexivity|lia]. }
  split; [exact Hitems|].
  exact (collect_overlaps_datetime_against_dates
           (Instance None {[ "begin" := DateTime 10 3600; "end" := DateTime 20 0 ]})
           _ "begin" "end" 10 3600 20 0 eq_refl eq_refl ltac:(lia) Hitems).
Defined.

(** The same two intervals, the kinds of bounds exchanged. *)
Lemma collect_overlaps_dates_against_datetimes_witness :
  let obj := Instance None {[ "begin" := Date 5; "end" := Date 10 ]} in
  let item :=
    Instance (Some 2) {[ "begin" := DateTime 10 3600; "end" := DateTime 20 0 ]} in
  collect_overlaps obj [item] "begin" "end" = Ok [].
Proof.
  cbv zeta.
  assert (Hb : getattr (Instance None {[ "begin" := Date 5; "end" := Date 10 ]})
                 "begin" = Some (Date 5)) by reflexivity.
  assert (He : getattr (Instance None {[ "begin" := Date 5; "end" := Date 10 ]})
                 "end" = Some (Date 10)) by reflexivity.
  apply (collect_overlaps_dates_against_datetimes
           (Instance None {[ "begin" := Date 5; "end" := Date 10 ]})
           _ "begin" "end" 5 10 Hb He).
  intros i Hi. apply list_elem_of_singleton in Hi as ->.
  by eexists _, _, _, _.
Defined.

Lemma collect_overlaps_needs_bounds_witness :
  let obj := Instance (Some 1) {[ "begin" := Date 5 ]} in
  getattr obj "end" = None /\
  collect_overlaps obj [] "begin" "end" = Raise ValueError.
Proof.
  cbv zeta. split; [reflexivity|].
  apply (proj1 (collect_overlaps_needs_bounds
                  (Instance (Some 1) {[ "begin" := Date 5 ]}) [] "begin" "end")).
  by right.
Defined.

Lemma collect_overlaps_selects_witness :
  let booking := fun pk b e =>
    Instance (Some pk) {[ "begin" := Date b; "end" := Date e ]} in
  let queryset := [booking 1 1 9; booking 7 10 20; booking 3 20 30] in
  collect_overlaps (booking 7 10 20) queryset "begin" "end" =
    Ok [booking 3 20 30] /\
  [booking 3 20 30] `sublist_of` queryset.
Proof.
  cbv zeta.
  assert (Hres : collect_overlaps
    (Instance (Some 7) {[ "begin" := Date 10; "end" := Date 20 ]})
    [Instance (Some 1) {[ "begin" := Date 1; "end" := Date 9 ]};
     Instance (Some 7) {[ "begin" := Date 10; "end" := Date 20 ]};
     Instance (Some 3) {[ "begin" := Date 20; "end" := Date 30 ]}]
    "begin" "end" =
    Ok [Instance (Some 3) {[ "begin" := Date 20; "end" := Date 30 ]}])
    by reflexivity.
  split; [exact Hres|].
  exact (proj1 (collect_overlaps_selects _ _ _ _ _ Hres)).
Defined.

End OverlapsFacts.
